(** * rebuild_card_data.py: row parser, keyword extractor, legacy reconciler

    A shallow embedding of [rebuild_card_data.py].  Python [str] values
    are modelled by [string]; the character tables below (white space,
    digits, case mapping) are those of the ASCII range, so a character
    with a code above 127 is a symbol without case that is neither white
    space nor a digit.  Python's tables go beyond ASCII, so the
    properties that depend on them are stated for ASCII strings
    ([Props.is_ascii], [Props.ascii_row]).  A [dict] is a [gmap] with
    string keys, a Python [set] of names is a [gset], [None] and an
    absent key are [option]'s [None].  [float] values are binary64 numbers ([spec_float] at
    precision 53).  A raised exception is the [Raise] outcome of the
    [result] type, and [try]/[except] is [try_except]. *)

From Stdlib Require Import ZArith Bool Ascii Lia.
From Stdlib Require Import Floats.SpecFloat.
From stdpp Require Import gmap strings list.

(** ** Exceptions *)

Inductive exn : Type := ValueError.

Inductive result (A : Type) : Type :=
| Ok (a : A)
| Raise (e : exn).
Arguments Ok {A} a.
Arguments Raise {A} e.

Global Instance result_ret : MRet result := fun A a => Ok a.

Global Instance result_bind : MBind result := fun A B k m =>
  match m with
  | Ok a => k a
  | Raise e => Raise e
  end.

(** [try: body except ValueError: handler] *)
Definition try_except {A} (body : result A) (handler : result A) : result A :=
  match body with
  | Ok a => Ok a
  | Raise ValueError => handler
  end.

(** ** Python string operations *)

Module PyStr.

Definition code (c : ascii) : N := N_of_ascii c.

(** [str.isspace] on one ASCII character; also the class [\s] of [re]
    there. *)
Definition is_space (c : ascii) : bool :=
  let n := code c in
  ((9 <=? n) && (n <=? 13) || (28 <=? n) && (n <=? 32))%N.

(** The class [\d] of [re] on ASCII characters. *)
Definition is_digit (c : ascii) : bool :=
  let n := code c in ((48 <=? n) && (n <=? 57))%N.

Definition is_upper (c : ascii) : bool :=
  let n := code c in ((65 <=? n) && (n <=? 90))%N.

Definition is_lower (c : ascii) : bool :=
  let n := code c in ((97 <=? n) && (n <=? 122))%N.

Definition lower_char (c : ascii) : ascii :=
  if is_upper c then ascii_of_N (code c + 32) else c.

Definition upper_char (c : ascii) : ascii :=
  if is_lower c then ascii_of_N (code c - 32) else c.

Fixpoint map_chars (f : ascii -> ascii) (s : string) : string :=
  match s with
  | EmptyString => EmptyString
  | String c r => String (f c) (map_chars f r)
  end.

(** [s.lower()], [s.upper()] on ASCII strings *)
Definition lower (s : string) : string := map_chars lower_char s.
Definition upper (s : string) : string := map_chars upper_char s.

(** [s.capitalize()] on ASCII strings: first character upper-cased,
    all others lower-cased. *)
Definition capitalize (s : string) : string :=
  match s with
  | EmptyString => EmptyString
  | String c r => String (upper_char c) (lower r)
  end.

(** Truth value of a string: [if s] *)
Definition truthy (s : string) : bool :=
  match s with EmptyString => false | String _ _ => true end.

Fixpoint lstrip (s : string) : string :=
  match s with
  | EmptyString => EmptyString
  | String c r => if is_space c then lstrip r else s
  end.

Fixpoint rstrip (s : string) : string :=
  match s with
  | EmptyString => EmptyString
  | String c r =>
      let r' := rstrip r in
      if is_space c && negb (truthy r') then EmptyString else String c r'
  end.

(** [s.strip()] *)
Definition strip (s : string) : string := rstrip (lstrip s).

(** Longest prefix of characters in class [p], and the rest. *)
Fixpoint span (p : ascii -> bool) (s : string) : string * string :=
  match s with
  | EmptyString => (EmptyString, EmptyString)
  | String c r =>
      if p c then let '(a, b) := span p r in (String c a, b)
      else (EmptyString, s)
  end.

(** [s.startswith(pre)] *)
Fixpoint startswith (pre s : string) : bool :=
  match pre, s with
  | EmptyString, _ => true
  | String a pre', String b s' => Ascii.eqb a b && startswith pre' s'
  | String _ _, EmptyString => false
  end.

(** [sub in s] *)
Fixpoint contains (sub s : string) : bool :=
  startswith sub s ||
  match s with
  | EmptyString => false
  | String _ r => contains sub r
  end.

(** [x in l] for a list of strings *)
Definition mem (x : string) (l : list string) : bool :=
  existsb (String.eqb x) l.

(** [sep.join(l)] *)
Fixpoint join (sep : string) (l : list string) : string :=
  match l with
  | [] => EmptyString
  | [x] => x
  | x :: r => x +:+ sep +:+ join sep r
  end.

(** [s.split(sep)] for a separator of one character *)
Fixpoint split (sep : ascii) (s : string) : list string :=
  match s with
  | EmptyString => [EmptyString]
  | String c r =>
      if Ascii.eqb c sep then EmptyString :: split sep r
      else match split sep r with
           | [] => [String c EmptyString]
           | x :: l => String c x :: l
           end
  end.

(** [s.replace(old, new)] for a non-empty [old]: occurrences are found
    from the left and do not overlap; [skip] counts the characters of
    an occurrence still to be passed over. *)
Fixpoint replace_from (skip : nat) (old new s : string) : string :=
  match s with
  | EmptyString => EmptyString
  | String c r =>
      match skip with
      | S k => replace_from k old new r
      | O =>
          if startswith old s
          then new +:+ replace_from (String.length old - 1) old new r
          else String c (replace_from 0 old new r)
      end
  end.

(** With an empty [old], [new] goes before every character and at the
    end. *)
Fixpoint intersperse (new s : string) : string :=
  match s with
  | EmptyString => new
  | String c r => new +:+ String c (intersperse new r)
  end.

Definition replace (old new s : string) : string :=
  if truthy old then replace_from 0 old new s else intersperse new s.

Fixpoint rev_onto (acc s : string) : string :=
  match s with
  | EmptyString => acc
  | String c r => rev_onto (String c acc) r
  end.

Definition rev (s : string) : string := rev_onto EmptyString s.

End PyStr.

(** ** [float(s)] for an ASCII string argument *)

Module PyFloat.
Import PyStr.

Definition prec : Z := 53.
Definition emax : Z := 1024.

(** The float of an integer. *)
Definition of_Z (z : Z) : spec_float := binary_normalize prec emax z 0 false.

(** White space that [float] removes around its argument. *)
Definition is_c_space (c : ascii) : bool :=
  let n := code c in ((9 <=? n) && (n <=? 13) || (n =? 32))%N.

Fixpoint c_lstrip (s : string) : string :=
  match s with
  | EmptyString => EmptyString
  | String c r => if is_c_space c then c_lstrip r else s
  end.

Definition c_strip (s : string) : string := rev (c_lstrip (rev (c_lstrip s))).

(** An underscore is accepted between two digits only, and dropped.
    [prev] is the character before [s]. *)
Fixpoint drop_underscores (prev : option ascii) (s : string) : option string :=
  match s with
  | EmptyString =>
      match prev with
      | Some "_"%char => None
      | _ => Some EmptyString
      end
  | String c r =>
      if Ascii.eqb c "_" then
        match prev with
        | Some p => if is_digit p then drop_underscores (Some c) r else None
        | None => None
        end
      else
        match prev with
        | Some "_"%char =>
            if is_digit c then String c <$> drop_underscores (Some c) r else None
        | _ => String c <$> drop_underscores (Some c) r
        end
  end.

Definition digit_value (c : ascii) : Z := Z.of_N (code c) - 48.

Fixpoint digits_value (acc : Z) (s : string) : Z :=
  match s with
  | EmptyString => acc
  | String c r => digits_value (10 * acc + digit_value c) r
  end.

(** An optional sign; [true] is minus. *)
Definition sign (s : string) : bool * string :=
  match s with
  | String "-"%char r => (true, r)
  | String "+"%char r => (false, r)
  | _ => (false, s)
  end.

(** The binary64 number nearest to [m * 10 ^ e] (ties to even),
    [m] not negative. *)
Definition round_decimal (neg : bool) (m e : Z) : spec_float :=
  if (m =? 0)%Z then S754_zero neg
  else if (0 <=? e)%Z then
    binary_normalize prec emax (cond_Zopp neg (m * 10 ^ e)) 0 neg
  else
    let k := (- e)%Z in
    let s := (4 * k + 1100)%Z in
    let '(q, r) := Z.div_eucl (m * 2 ^ s) (10 ^ k) in
    binary_round_aux prec emax neg q (- s) (new_location (10 ^ k) r).

(** [digits [. digits] [e [sign] digits]], the whole of [s]. *)
Definition parse_decimal (s : string) : option spec_float :=
  let '(neg, r0) := sign s in
  let '(ip, r1) := span is_digit r0 in
  let '(fp, r2) :=
    match r1 with
    | String "."%char r => span is_digit r
    | _ => (EmptyString, r1)
    end in
  if negb (truthy ip) && negb (truthy fp) then None
  else
    let m := digits_value 0 (ip +:+ fp) in
    let e0 := (- Z.of_nat (String.length fp))%Z in
    match r2 with
    | EmptyString => Some (round_decimal neg m e0)
    | String c r3 =>
        if Ascii.eqb (lower_char c) "e" then
          let '(eneg, r4) := sign r3 in
          let '(ed, r5) := span is_digit r4 in
          if truthy ed && negb (truthy r5)
          then Some (round_decimal neg m (e0 + cond_Zopp eneg (digits_value 0 ed)))
          else None
        else None
    end.

(** [inf], [infinity] and [nan] in any case, with an optional sign. *)
Definition parse_inf_nan (s : string) : option spec_float :=
  let '(neg, r) := sign s in
  let l := lower r in
  if String.eqb l "inf" || String.eqb l "infinity" then Some (S754_infinity neg)
  else if String.eqb l "nan" then Some S754_nan
  else None.

Definition py_float (s : string) : result spec_float :=
  match drop_underscores None (c_strip s) with
  | None => Raise ValueError
  | Some t =>
      match parse_decimal t with
      | Some f => Ok f
      | None =>
          match parse_inf_nan t with
          | Some f => Ok f
          | None => Raise ValueError
          end
      end
  end.

End PyFloat.


(** ** Keyword extractor: [extract_keywords] *)

Module Keywords.
Import PyStr.

Definition known_keywords : list string :=
  [ "Accelerate"; "Action"; "Reaction"; "Hidden"; "Vision"; "Legion";
    "Assault"; "Defender"; "Elusive"; "Fearsome"; "Mighty"; "Temporary";
    "Quick Attack"; "Overwhelm"; "Lifesteal"; "Barrier"; "Spellshield";
    "Regeneration"; "Tough"; "Challenger"; "Scout"; "Fury"; "Attune";
    "Deep"; "Ephemeral"; "Last Breath"; "Nexus Strike"; "Play"; "Strike";
    "Support"; "Vulnerable"; "Capture"; "Frostbite"; "Immobile"; "Recall";
    "Silence"; "Stun"; "Obliterate"; "Rally"; "Enlightened"; "Reputation";
    "Lurk"; "Predict"; "Invoke"; "Behold"; "Augment"; "Impact"; "Formidable";
    "Equipment"; "Attach"; "Hallowed"; "Evolve"; "Husk"; "Boon"; "Flow" ].

Definition not_rbracket (c : ascii) : bool := negb (Ascii.eqb c "]").

(** The pattern [\[([^\]]+)\]] at the start of [s]: the group when it
    matches. *)
Definition bracket_here (s : string) : option string :=
  match s with
  | String "["%char r =>
      let '(inner, rest) := span not_rbracket r in
      match inner, rest with
      | String _ _, String _ _ => Some inner
      | _, _ => None
      end
  | _ => None
  end.

(** [re.findall(r'\[([^\]]+)\]', text)]: the matches from the left,
    the search resuming where a match ended.  [skip] counts the
    characters of the last match still to be passed over. *)
Fixpoint findall_from (skip : nat) (s : string) : list string :=
  match s with
  | EmptyString => []
  | String _ r =>
      match skip with
      | S k => findall_from k r
      | O =>
          match bracket_here s with
          | Some inner => inner :: findall_from (S (String.length inner)) r
          | None => findall_from 0 r
          end
      end
  end.

Definition bracket_matches (text : string) : list string := findall_from 0 text.

(** [re.sub(r'\s+\d+$', '', kw)]: the end of [kw] that is white space
    followed by digits is removed; [$] is the end of the string or the
    place before a line feed that ends it. *)
Definition cut_number (kw : string) : option string :=
  let '(digits, r1) := span is_digit (rev kw) in
  let '(spaces, r2) := span is_space r1 in
  if truthy digits && truthy spaces then Some (rev r2) else None.

Definition sub_trailing_number (kw : string) : string :=
  match cut_number kw with
  | Some b => b
  | None =>
      match rev kw with
      | String "010"%char r =>
          match cut_number (rev r) with
          | Some b => b +:+ String "010" EmptyString
          | None => kw
          end
      | _ => kw
      end
  end.

(** The body of the loop over the bracket matches. *)
Definition bracket_step (keywords : list string) (m : string) : list string :=
  let kw := strip m in
  let base_kw := sub_trailing_number kw in
  if truthy base_kw && negb (mem base_kw keywords)
  then keywords ++ [kw]
  else keywords.

Definition bracket_pass (text : string) : list string :=
  fold_left bracket_step (bracket_matches text) [].

(** A literal of the pattern under [re.IGNORECASE], at the start of
    an ASCII [s]: what follows it when it matches. *)
Fixpoint literal_ci (lit s : string) : option string :=
  match lit, s with
  | EmptyString, _ => Some s
  | String a lit', String b s' =>
      if Ascii.eqb (lower_char a) (lower_char b) then literal_ci lit' s' else None
  | String _ _, EmptyString => None
  end.

(** [(?:\s+\d+)?\]] at the start of [s] *)
Definition number_and_close (s : string) : bool :=
  startswith "]" s ||
  (let '(spaces, r1) := span is_space s in
   let '(digits, r2) := span is_digit r1 in
   truthy spaces && truthy digits && startswith "]" r2).

(** The pattern [\[kw(?:\s+\d+)?\]|\(kw] at the start of [s] *)
Definition usage_here (kw s : string) : bool :=
  match s with
  | String "["%char r =>
      match literal_ci kw r with
      | Some r' => number_and_close r'
      | None => false
      end
  | String "("%char r =>
      match literal_ci kw r with
      | Some _ => true
      | None => false
      end
  | _ => false
  end.

(** [re.search(pattern, text, re.IGNORECASE)] as a truth value *)
Fixpoint usage_search (kw s : string) : bool :=
  usage_here kw s ||
  match s with
  | EmptyString => false
  | String _ r => usage_search kw r
  end.

(** The body of the loop over the known keywords. *)
Definition known_step (text : string) (keywords : list string) (kw : string)
  : list string :=
  if contains (lower kw) (lower text) && negb (mem kw keywords) then
    if usage_search kw text then
      if negb (mem kw keywords) then keywords ++ [kw] else keywords
    else keywords
  else keywords.

Definition extract_keywords (text : string) : list string :=
  fold_left (known_step text) known_keywords (bracket_pass text).

End Keywords.

(** ** Card records *)

(** A value of [stats]: a float, a string, or (from legacy JSON) an
    integer. *)
Inductive stat : Type :=
| StatFloat (f : spec_float)
| StatStr (s : string)
| StatInt (n : Z).

Record stats : Type := mk_stats {
  energy : option stat;
  might : option stat;
  power : option stat
}.

Record rules_text : Type := mk_rules_text {
  raw : string;
  keywords : list string
}.

(** The keys [supertypes], [tags] and [image_url] may be absent from the
    dictionary. *)
Record card : Type := mk_card {
  id : string;
  name : string;
  rarity : string;
  domain : string;
  type_line : string;
  card_stats : stats;
  card_rules_text : rules_text;
  supertypes : option string;
  tags : option (list string);
  image_url : option string
}.

(** ** Row parser: [parse_csv_row] *)

Module Row.
Import PyStr.

(** [row.get(key, '')] *)
Definition get (row : gmap string string) (key : string) : string :=
  default EmptyString (row !! key).

(** [row.get(key, '').strip().capitalize() if row.get(key) else ''] *)
Definition domain_field (row : gmap string string) (key : string) : string :=
  match row !! key with
  | Some (String _ _) => capitalize (strip (get row key))
  | _ => EmptyString
  end.

(** [s and s.lower() not in ['', 'nan']] *)
Definition given (s : string) : bool :=
  truthy s && negb (mem (lower s) [EmptyString; "nan"]).

Definition domains (row : gmap string string) : list string :=
  let domain1 := domain_field row "Domain 1" in
  let domain2 := domain_field row "Domain 2" in
  (if given domain1 then [domain1] else []) ++
  (if given domain2 then [domain2] else []).

Definition domain_str (row : gmap string string) : string :=
  match domains row with
  | [] => "Colorless"
  | ds => join ", " ds
  end.

Definition subtype_keys : list string :=
  ["Subtype 1"; "Subtype 2"; "Subtype 3"; "Subtype 4"; "Subtype 5"].

Definition subtypes (row : gmap string string) : list string :=
  flat_map (fun key =>
              let subtype := strip (get row key) in
              if given subtype then [lower subtype] else [])
           subtype_keys.

Definition card_type (row : gmap string string) : string :=
  let t := lower (strip (get row "types")) in
  if truthy t then t else "unit".

Definition row_type_line (row : gmap string string) : string :=
  match subtypes row with
  | [] => card_type row
  | sts => card_type row +:+ " - " +:+ join ", " sts
  end.

(** [float(s) if s and s not in ['', '-'] else None] inside
    [try] ... [except ValueError: None] *)
Definition parse_number (s : string) : result (option stat) :=
  try_except
    (if truthy s && negb (mem s [EmptyString; "-"])
     then f ← PyFloat.py_float s; mret (Some (StatFloat f))
     else mret None)
    (mret None).

Definition parse_power (power : string) : result (option stat) :=
  if truthy power && negb (mem power [EmptyString; "-"]) then
    if String.eqb (replace "C" EmptyString (upper power)) EmptyString
    then mret (Some (StatStr (upper power)))
    else
      try_except
        (f ← PyFloat.py_float power; mret (Some (StatFloat f)))
        (mret (Some (StatStr power)))
  else mret None.

Definition row_tags (row : gmap string string) : option (list string) :=
  let tags := strip (get row "Tags") in
  if given tags
  then Some (filter (fun t => truthy t = true) (strip <$> split "," tags))
  else None.

Definition row_supertypes (row : gmap string string) : option string :=
  let supertypes := strip (get row "supertypes") in
  if given supertypes then Some (lower supertypes) else None.

(** The column [ALT TEXT] is read and not used. *)
Definition parse_csv_row (row : gmap string string) : result (option card) :=
  let name := strip (get row "Name") in
  if negb (truthy name) then mret None else
  let card_id := strip (get row "Collector Number") in
  if negb (truthy card_id) then mret None else
  energy_val ← parse_number (strip (get row "Energy"));
  might_val ← parse_number (strip (get row "Might"));
  power_val ← parse_power (strip (get row "Power"));
  let description := strip (get row "Description") in
  mret (Some {|
    id := card_id;
    name := name;
    rarity := lower (strip (get row "Rarity"));
    domain := domain_str row;
    type_line := row_type_line row;
    card_stats := {| energy := energy_val; might := might_val; power := power_val |};
    card_rules_text := {| raw := description;
                          keywords := Keywords.extract_keywords description |};
    supertypes := row_supertypes row;
    tags := row_tags row;
    image_url := None
  |}).

End Row.

(** ** Legacy records: [convert_legacy_to_expert] *)

Record legacy_stats : Type := mk_legacy_stats {
  l_might : option stat;
  l_power : option stat
}.

Record legacy_ability : Type := mk_legacy_ability {
  l_raw_text : option string;
  l_effect_text : option string;
  l_keywords : option (list string)
}.

(** A legacy JSON object; [None] is an absent key. *)
Record legacy_card : Type := mk_legacy_card {
  l_id : option string;
  l_name : option string;
  l_rarity : option string;
  l_domain : option string;
  l_type : option string;
  l_tags : option (list string);
  l_cost : option stat;
  l_stats : option legacy_stats;
  l_ability : option legacy_ability;
  l_image_url : option string
}.

Module Legacy.
Import PyStr.

Definition legacy_type_line (lc : legacy_card) : string :=
  let card_type := lower (default "unit" (l_type lc)) in
  match default [] (l_tags lc) with
  | [] => card_type
  | tags => card_type +:+ " - " +:+ join ", " (lower <$> tags)
  end.

(** [ability.get('raw_text', '') or ability.get('effect_text', '')] *)
Definition legacy_raw_text (lc : legacy_card) : string :=
  let raw_text := default EmptyString (l_ability lc ≫= l_raw_text) in
  if truthy raw_text then raw_text
  else default EmptyString (l_ability lc ≫= l_effect_text).

Definition convert_legacy_to_expert (lc : legacy_card) : card :=
  {| id := default EmptyString (l_id lc);
     name := default EmptyString (l_name lc);
     rarity := lower (default EmptyString (l_rarity lc));
     domain := default "Colorless" (l_domain lc);
     type_line := legacy_type_line lc;
     card_stats := {| energy := l_cost lc;
                      might := l_stats lc ≫= l_might;
                      power := l_stats lc ≫= l_power |};
     card_rules_text := {| raw := legacy_raw_text lc;
                           keywords := default [] (l_ability lc ≫= l_keywords) |};
     supertypes := None;
     tags := None;
     image_url := Some (default EmptyString (l_image_url lc)) |}.

End Legacy.

(** ** The two loops of [main] over the rows and the legacy records *)

Module Main.
Import PyStr.

(** [card['image_url'] = images[card['name']]] *)
Definition set_image_url (c : card) (url : string) : card :=
  {| id := id c; name := name c; rarity := rarity c; domain := domain c;
     type_line := type_line c; card_stats := card_stats c;
     card_rules_text := card_rules_text c; supertypes := supertypes c;
     tags := tags c; image_url := Some url |}.

Definition add_image (images : gmap string string) (c : card) : card :=
  match images !! name c with
  | Some url => set_image_url c url
  | None => c
  end.

(** State of the loops: [cards] and [card_names_in_csv]. *)
Definition csv_step (images : gmap string string)
    (st : list card * gset string) (row : gmap string string)
  : result (list card * gset string) :=
  parsed ← Row.parse_csv_row row;
  match parsed with
  | Some c =>
      let c' := add_image images c in
      mret (st.1 ++ [c'], st.2 ∪ {[ lower (name c') ]})
  | None => mret st
  end.

Fixpoint csv_loop (images : gmap string string)
    (st : list card * gset string) (rows : list (gmap string string))
  : result (list card * gset string) :=
  match rows with
  | [] => mret st
  | row :: rest => st' ← csv_step images st row; csv_loop images st' rest
  end.

Definition legacy_step (card_names_in_csv : gset string)
    (cards : list card) (lc : legacy_card) : list card :=
  let legacy_name := lower (default EmptyString (l_name lc)) in
  if truthy legacy_name && negb (bool_decide (legacy_name ∈ card_names_in_csv))
  then cards ++ [Legacy.convert_legacy_to_expert lc]
  else cards.

(** The list [cards] that [main] writes out. *)
Definition build_cards (images : gmap string string)
    (legacy_cards : list legacy_card) (rows : list (gmap string string))
  : result (list card) :=
  st ← csv_loop images ([], ∅) rows;
  mret (fold_left (legacy_step st.2) legacy_cards st.1).

End Main.

(** ** Image map: [load_images] and the manual images of [main] *)

Module Images.
Import PyStr.

Definition site_origin : string := "https://riftdecks.com".

(** [f"https://riftdecks.com{image_url}"] when [image_url] starts with
    a slash *)
Definition absolute_url (image_url : string) : string :=
  if startswith "/" image_url then site_origin +:+ image_url else image_url.

(** The body of the loop over the rows of the images file. *)
Definition image_step (images : gmap string string) (row : gmap string string)
  : gmap string string :=
  let name := strip (Row.get row "Name") in
  let image_url := strip (Row.get row "Card Image URL") in
  if truthy name && truthy image_url
  then <[name := absolute_url image_url]> images
  else images.

Definition load_images (rows : list (gmap string string)) : gmap string string :=
  fold_left image_step rows ∅.

Definition manual_images : list (string * string) :=
  [ ("Seal of Rage", "https://cmsassets.rgpub.io/sanity/images/dsfx7636/game_data_live/fbdd14adb40b0ca46b89f476a356fa21413d812e-744x1039.png");
    ("Seal of Focus", "https://cmsassets.rgpub.io/sanity/images/dsfx7636/game_data_live/288c300c4e4cb10ecfe6c3cbb543d0636b306852-744x1039.png");
    ("Seal of Insight", "https://cmsassets.rgpub.io/sanity/images/dsfx7636/game_data_live/9ee0dc0221f83d569e0f458374e40f7238f306c2-744x1039.png");
    ("Seal of Strength", "https://cmsassets.rgpub.io/sanity/images/dsfx7636/game_data_live/415644b2798348e3d7198ec900cc40aaa4eb8bdf-744x1039.png");
    ("Seal of Discord", "https://cmsassets.rgpub.io/sanity/images/dsfx7636/game_data_live/dd8433e77e46ca77aaf0be35d1774218d9a2f037-744x1039.png");
    ("Seal of Unity", "https://cmsassets.rgpub.io/sanity/images/dsfx7636/game_data_live/e6fbd41d69bc0d235ea7993d2e9fa74e75e17dff-744x1039.png");
    ("Vayne, Hunter", "https://riftdecks.com/img/cards/riftbound/OGN/ogn-035-298_full.png");
    ("Ahri, Inquisitive", "https://riftdecks.com/img/cards/riftbound/OGN/ogn-119-298_full.png");
    ("Teemo, Strategist", "https://riftdecks.com/img/cards/riftbound/OGN/ogn-121-298_full.png");
    ("Sett, Brawler", "https://riftdecks.com/img/cards/riftbound/OGN/ogn-164a-298_full.png");
    ("Yasuo, Windrider", "https://riftdecks.com/img/cards/riftbound/OGN/ogn-205-298_full.png");
    ("Darius, Executioner", "https://riftdecks.com/img/cards/riftbound/OGN/ogn-243-298_full.png") ].

(** [images.setdefault(name, url)] *)
Definition setdefault (images : gmap string string) (entry : string * string)
  : gmap string string :=
  match images !! entry.1 with
  | Some _ => images
  | None => <[entry.1 := entry.2]> images
  end.

(** [for name, url in manual_images.items(): images.setdefault(name, url)] *)
Definition add_manual_images (images : gmap string string) : gmap string string :=
  fold_left setdefault manual_images images.

(** The list [cards] of [main], from the rows of the images file, the
    legacy records and the rows of the card file. *)
Definition main_cards (image_rows : list (gmap string string))
    (legacy_cards : list legacy_card) (rows : list (gmap string string))
  : result (list card) :=
  Main.build_cards (add_manual_images (load_images image_rows)) legacy_cards rows.

End Images.

(** ** The distributions that [main] prints *)

Module Report.
Import PyStr.

(** [s.split(sep)] for a non-empty [sep] of any length; [skip] counts
    the characters of a separator still to be passed over. *)
Fixpoint split_from (skip : nat) (sep s : string) : list string :=
  match s with
  | EmptyString => [EmptyString]
  | String c r =>
      match skip with
      | S k => split_from k sep r
      | O =>
          if startswith sep s
          then EmptyString :: split_from (String.length sep - 1) sep r
          else match split_from 0 sep r with
               | [] => [String c EmptyString]
               | x :: l => String c x :: l
               end
      end
  end.

(** [card.get('type_line', '').split(' - ')[0]] *)
Definition primary_type (c : card) : string :=
  default EmptyString (head (split_from 0 " - " (type_line c))).

(** [counts[k] = counts.get(k, 0) + 1] *)
Definition bump (counts : gmap string nat) (k : string) : gmap string nat :=
  <[k := default 0 (counts !! k) + 1]> counts.

(** State of the loop: [domains] and [types]. *)
Definition report_step (st : gmap string nat * gmap string nat) (c : card)
  : gmap string nat * gmap string nat :=
  (bump st.1 (domain c), bump st.2 (primary_type c)).

Definition distributions (cards : list card) : gmap string nat * gmap string nat :=
  fold_left report_step cards (∅, ∅).

End Report.

(** ** Vocabulary of the properties *)

Module Props.
Import PyStr.

(** Every character of [s] is in class [p]. *)
Fixpoint all_chars (p : ascii -> bool) (s : string) : bool :=
  match s with
  | EmptyString => true
  | String c r => p c && all_chars p r
  end.

(** [c] occurs in [s]. *)
Fixpoint has_char (c : ascii) (s : string) : bool :=
  match s with
  | EmptyString => false
  | String a r => Ascii.eqb a c || has_char c r
  end.


(** A field that is empty or [nan] in any case, once trimmed. *)
Definition blank (field : string) : bool :=
  negb (truthy (strip field)) || String.eqb (lower (strip field)) "nan".

(** The records that the rows give, in the order of the rows, each
    with the image of its name. *)
Definition csv_records (images : gmap string string)
    (rows : list (gmap string string)) : list card :=
  flat_map (fun row =>
              match Row.parse_csv_row row with
              | Ok (Some c) => [Main.add_image images c]
              | _ => []
              end) rows.

(** Their names in lower case. *)
Definition csv_names (images : gmap string string)
    (rows : list (gmap string string)) : gset string :=
  list_to_set ((fun c => lower (name c)) <$> csv_records images rows).

(** A legacy record with a name that no row has. *)
Definition missing_from_csv (names : gset string) (lc : legacy_card) : Prop :=
  default EmptyString (l_name lc) <> EmptyString /\
  lower (default EmptyString (l_name lc)) ∉ names.

Global Instance missing_from_csv_dec names lc : Decision (missing_from_csv names lc).
Proof. unfold missing_from_csv. apply _. Defined.

(** The strings of the ASCII range: on them white space, digits and
    letter case of [PyStr] are those of Python's [str], [float] and
    [re]. *)
Definition is_ascii (s : string) : bool :=
  all_chars (fun c => (code c <? 128)%N) s.

(** Every cell of a row is ASCII. *)
Definition ascii_row (row : gmap string string) : bool :=
  map_fold (fun _ cell ok => is_ascii cell && ok) true row.

(** What [load_images] keeps true of every entry of its map: the name
    is not empty and is trimmed, the URL is not empty and does not start
    with a slash. *)
Definition image_entry_ok (n u : string) : Prop :=
  n <> EmptyString /\ strip n = n /\
  u <> EmptyString /\ startswith "/" u = false.

(** One counter of the loop of the distributions, for the key [f c] of
    every card. *)
Definition count_keys (f : card -> string) (cards : list card)
    (counts : gmap string nat) : gmap string nat :=
  fold_left (fun m c => Report.bump m (f c)) cards counts.

(** The sum of the counts of a distribution. *)
Definition total (counts : gmap string nat) : nat :=
  map_fold (fun _ v acc => v + acc) 0 counts.

End Props.

(** ** Sample inputs *)

(** A legacy record with a name and nothing else, and one without any
    key. *)
Definition legacy_name_only : legacy_card :=
  {| l_id := None; l_name := Some "Old Card"; l_rarity := None; l_domain := None;
     l_type := None; l_tags := None; l_cost := None; l_stats := None;
     l_ability := None; l_image_url := None |}.

Definition legacy_empty : legacy_card :=
  {| l_id := None; l_name := None; l_rarity := None; l_domain := None;
     l_type := None; l_tags := None; l_cost := None; l_stats := None;
     l_ability := None; l_image_url := None |}.

(** Rows with a name and a collector number. *)
Definition row_test_unit : gmap string string :=
  <["Name" := "Test Unit"]> (<["Collector Number" := "001"]> ∅).

Definition row_fury : gmap string string :=
  <["Name" := "Test Unit"]> (<["Collector Number" := "001"]>
    (<["Domain 1" := " FURY "]> ∅)).



Definition row_bad_numbers : gmap string string :=
  <["Energy" := "two"]> (<["Might" := "1e"]> row_test_unit).

(** A row of the images file. *)
Definition image_row (n u : string) : gmap string string :=
  <["Name" := n]> (<["Card Image URL" := u]> ∅).

(** * Properties *)

Import PyStr.

(** ** Strings *)

Lemma truthy_true (s : string) : truthy s = true <-> s <> EmptyString.
Proof. destruct s; simpl; split; congruence. Qed.

Lemma truthy_false (s : string) : truthy s = false <-> s = EmptyString.
Proof. destruct s; simpl; split; congruence. Qed.

Lemma truthy_map_chars f s : truthy (map_chars f s) = truthy s.
Proof. now destruct s. Qed.



Lemma lower_char_idem c : lower_char (lower_char c) = lower_char c.
Proof. destruct c as [[] [] [] [] [] [] [] []]; reflexivity. Qed.


Lemma lower_idem s : lower (lower s) = lower s.
Proof.
  induction s as [|c r IH]; simpl; [reflexivity|].
  unfold lower in *. simpl. now rewrite lower_char_idem, IH.
Qed.





Lemma mem_In x l : mem x l = true <-> In x l.
Proof.
  unfold mem. rewrite existsb_exists. split.
  - intros (y & Hy & He). apply String.eqb_eq in He. now subst.
  - intros H. exists x. split; [assumption | apply String.eqb_refl].
Qed.

Lemma mem_not_In x l : mem x l = false <-> ~ In x l.
Proof.
  rewrite <- mem_In. destruct (mem x l); split; congruence.
Qed.

(** [ascii_cells]: a closed string or row is ASCII. *)
Ltac ascii_cells := vm_compute; reflexivity.

(** ** Keyword extractor *)

Section BracketPass.
Import Keywords.

Lemma bracket_step_cases acc m :
  (bracket_step acc m = acc ++ [strip m] /\
   sub_trailing_number (strip m) <> EmptyString /\
   ~ In (sub_trailing_number (strip m)) acc) \/
  (bracket_step acc m = acc /\
   (sub_trailing_number (strip m) = EmptyString \/
    In (sub_trailing_number (strip m)) acc)).
Proof.
  unfold bracket_step.
  destruct (truthy (sub_trailing_number (strip m))) eqn:Ht; simpl.
  - destruct (mem (sub_trailing_number (strip m)) acc) eqn:Hm; simpl.
    + right. split; [reflexivity|]. right. now apply mem_In.
    + left. split; [reflexivity|]. split.
      * now apply truthy_true.
      * now apply mem_not_In.
  - right. split; [reflexivity|]. left. now apply truthy_false.
Qed.

(** The list only grows along the loop. *)
Lemma bracket_fold_keeps ms acc k :
  In k acc -> In k (fold_left bracket_step ms acc).
Proof.
  revert acc. induction ms as [|m ms IH]; intros acc Hk; simpl; [assumption|].
  apply IH. destruct (bracket_step_cases acc m) as [(-> & _) | (-> & _)].
  - apply in_or_app. now left.
  - assumption.
Qed.

Lemma bracket_fold_origin ms acc k :
  In k (fold_left bracket_step ms acc) ->
  In k acc \/
  exists m, In m ms /\ k = strip m /\ sub_trailing_number k <> EmptyString.
Proof.
  revert acc. induction ms as [|m ms IH]; intros acc Hk; simpl in *; [now left|].
  destruct (IH _ Hk) as [Hacc | (m' & Hin & Heq & Hb)].
  - destruct (bracket_step_cases acc m) as [(E & Hne & _) | (E & _)];
      rewrite E in Hacc.
    + apply in_app_or in Hacc. destruct Hacc as [Hacc | [<- | []]].
      * now left.
      * right. exists m. auto.
    + now left.
  - right. exists m'. auto.
Qed.

Lemma bracket_fold_settles ms acc m :
  In m ms ->
  sub_trailing_number (strip m) <> EmptyString ->
  In (strip m) (fold_left bracket_step ms acc) \/
  In (sub_trailing_number (strip m)) (fold_left bracket_step ms acc).
Proof.
  revert acc. induction ms as [|m' ms IH]; intros acc Hin Hne; simpl in *; [easy|].
  destruct Hin as [-> | Hin]; [|now apply IH].
  destruct (bracket_step_cases acc m) as [(E & _ & _) | (E & [Hb | Hb])].
  - left. apply bracket_fold_keeps. rewrite E. apply in_or_app. right. now left.
  - contradiction.
  - right. apply bracket_fold_keeps. now rewrite E.
Qed.

End BracketPass.

(** C1 (as the code has it): for the text "Deals damage. [Overwhelm] [Assault 2]"
    the extractor returns "Overwhelm", "Assault 2" and then "Assault": the two
    bracket matches in their order, and the known keyword "Assault", which
    the text uses in the form [Assault 2] and which is not yet an entry.
    The three entries are distinct. *)
Theorem C1_extract_example :
  Keywords.extract_keywords "Deals damage. [Overwhelm] [Assault 2]"
  = ["Overwhelm"; "Assault 2"; "Assault"] /\
  Keywords.bracket_pass "Deals damage. [Overwhelm] [Assault 2]"
  = ["Overwhelm"; "Assault 2"] /\
  NoDup (Keywords.extract_keywords "Deals damage. [Overwhelm] [Assault 2]").
Proof.
  assert (E : Keywords.extract_keywords "Deals damage. [Overwhelm] [Assault 2]"
              = ["Overwhelm"; "Assault 2"; "Assault"]) by (vm_compute; reflexivity).
  split; [exact E|]. split; [vm_compute; reflexivity|].
  rewrite E. repeat constructor; rewrite ?list_elem_of_In; simpl; intuition congruence.
Qed.

(** C1, the claim as it is written, fails: the list is not
    "Overwhelm", "Assault 2". *)
Lemma C1_counterexample :
  Keywords.extract_keywords "Deals damage. [Overwhelm] [Assault 2]"
  <> ["Overwhelm"; "Assault 2"].
Proof. vm_compute. congruence. Qed.

(** C2: on the text "[Assault 2] [Assault 2]" the extractor returns the
    entry "Assault 2" twice. *)
Theorem C2_duplicate_entry :
  Keywords.extract_keywords "[Assault 2] [Assault 2]"
  = ["Assault 2"; "Assault 2"; "Assault"].
Proof. vm_compute. reflexivity. Qed.

(** C3 (as the code has it), for ASCII text: in the bracket pass every
    entry of the result is the trimmed inner text of a bracket match, trailing number kept, and
    its base name (the entry without white space and digits at its end) is
    not empty; a match whose base name is already an entry adds nothing;
    and once a match with a non-empty base name has been handled, its
    trimmed text or its base name is an entry.  On
    "[Assault] [Assault 2]" the pass gives "Assault" alone. *)
Theorem C3_bracket_pass (text : string) :
  Props.is_ascii text = true ->
  (forall acc m, Props.is_ascii m = true ->
     In (Keywords.sub_trailing_number (strip m)) acc ->
     Keywords.bracket_step acc m = acc) /\
  (forall k, In k (Keywords.bracket_pass text) ->
     exists m, In m (Keywords.bracket_matches text) /\ k = strip m /\
               Keywords.sub_trailing_number k <> EmptyString) /\
  (forall m, In m (Keywords.bracket_matches text) ->
     Keywords.sub_trailing_number (strip m) <> EmptyString ->
     In (strip m) (Keywords.bracket_pass text) \/
     In (Keywords.sub_trailing_number (strip m)) (Keywords.bracket_pass text)) /\
  Keywords.bracket_pass "[Assault] [Assault 2]" = ["Assault"].
Proof.
  intros _. split; [|split; [|split]].
  - intros acc m _ Hin.
    destruct (bracket_step_cases acc m) as [(_ & _ & Hn) | (E & _)];
      [contradiction | exact E].
  - intros k Hk. unfold Keywords.bracket_pass in Hk.
    apply bracket_fold_origin in Hk. destruct Hk as [[] | Hk]. exact Hk.
  - intros m Hm Hne. now apply bracket_fold_settles.
  - vm_compute. reflexivity.
Qed.

Lemma C3_bracket_pass_witness :
  In "Assault 2" (Keywords.bracket_pass "x [ Assault 2 ] y") /\
  exists m, In m (Keywords.bracket_matches "x [ Assault 2 ] y") /\
            "Assault 2" = strip m.
Proof.
  assert (H : In "Assault 2" (Keywords.bracket_pass "x [ Assault 2 ] y"))
    by (vm_compute; auto).
  split; [exact H|].
  destruct (C3_bracket_pass "x [ Assault 2 ] y" eq_refl) as (_ & H1 & _ & _).
  destruct (H1 _ H) as (m & Hm & He & _). exists m. auto.
Defined.

(** C3, the claim as it is written, fails: "[Assault] [Assault 2]" has
    both bracket matches, and "Assault 2" is not in the result. *)
Lemma C3_counterexample :
  In "Assault" (Keywords.bracket_matches "[Assault] [Assault 2]") /\
  In "Assault 2" (Keywords.bracket_matches "[Assault] [Assault 2]") /\
  ~ In "Assault 2" (Keywords.bracket_pass "[Assault] [Assault 2]") /\
  ~ In "Assault 2" (Keywords.extract_keywords "[Assault] [Assault 2]").
Proof.
  vm_compute. repeat split; auto; intros [H | H]; (congruence || exact H).
Qed.

(** ** Row parser *)

Section RowParser.
Import Row.

Lemma parse_number_ok s : exists v, parse_number s = Ok v.
Proof.
  unfold parse_number.
  destruct (truthy s && negb (mem s [EmptyString; "-"])); simpl; [|eauto].
  destruct (PyFloat.py_float s) as [f | []]; simpl; eauto.
Qed.

(** A [ValueError] of [float] is caught and gives [None]. *)
Lemma parse_number_caught s :
  PyFloat.py_float s = Raise ValueError -> parse_number s = Ok None.
Proof.
  intros H. unfold parse_number.
  destruct (truthy s && negb (mem s [EmptyString; "-"])); simpl; [|reflexivity].
  now rewrite H.
Qed.

Lemma parse_power_ok s : exists v, parse_power s = Ok v.
Proof.
  unfold parse_power.
  destruct (truthy s && negb (mem s [EmptyString; "-"])); simpl; [|eauto].
  destruct (String.eqb _ _); simpl; [eauto|].
  destruct (PyFloat.py_float s) as [f | []]; simpl; eauto.
Qed.

(** What a row that gives a record has, field by field. *)
Lemma parse_csv_row_Some row c :
  parse_csv_row row = Ok (Some c) ->
  strip (get row "Name") <> EmptyString /\
  strip (get row "Collector Number") <> EmptyString /\
  exists e m p,
    parse_number (strip (get row "Energy")) = Ok e /\
    parse_number (strip (get row "Might")) = Ok m /\
    parse_power (strip (get row "Power")) = Ok p /\
    c = {| id := strip (get row "Collector Number");
           name := strip (get row "Name");
           rarity := lower (strip (get row "Rarity"));
           domain := domain_str row;
           type_line := row_type_line row;
           card_stats := {| energy := e; might := m; power := p |};
           card_rules_text :=
             {| raw := strip (get row "Description");
                keywords := Keywords.extract_keywords (strip (get row "Description")) |};
           supertypes := row_supertypes row;
           tags := row_tags row;
           image_url := None |}.
Proof.
  unfold parse_csv_row.
  destruct (truthy (strip (get row "Name"))) eqn:Hn; simpl; [|discriminate].
  destruct (truthy (strip (get row "Collector Number"))) eqn:Hi; simpl; [|discriminate].
  destruct (parse_number_ok (strip (get row "Energy"))) as [e He].
  destruct (parse_number_ok (strip (get row "Might"))) as [m Hm].
  destruct (parse_power_ok (strip (get row "Power"))) as [p Hp].
  rewrite He; simpl. rewrite Hm; simpl. rewrite Hp; simpl.
  intros H. injection H as <-.
  split; [now apply truthy_true|]. split; [now apply truthy_true|].
  exists e, m, p. auto.
Qed.

Lemma parse_csv_row_ok row : exists r, parse_csv_row row = Ok r.
Proof.
  unfold parse_csv_row.
  destruct (truthy (strip (get row "Name"))); simpl; [|eauto].
  destruct (truthy (strip (get row "Collector Number"))); simpl; [|eauto].
  destruct (parse_number_ok (strip (get row "Energy"))) as [e ->].
  destruct (parse_number_ok (strip (get row "Might"))) as [m ->].
  destruct (parse_power_ok (strip (get row "Power"))) as [p ->].
  simpl. eauto.
Qed.

End RowParser.

(** ** The loops of [main] *)

Section Loops.
Import Main Props.

Lemma name_add_image images c : name (add_image images c) = name c.
Proof. unfold add_image. now destruct (images !! name c). Qed.

Lemma id_add_image images c : id (add_image images c) = id c.
Proof. unfold add_image. now destruct (images !! name c). Qed.

(** The loop over the rows, whatever the state it starts in. *)
Lemma csv_loop_spec images rows cards names :
  csv_loop images (cards, names) rows =
  Ok (cards ++ csv_records images rows,
      names ∪ list_to_set ((fun c => lower (name c)) <$> csv_records images rows)).
Proof.
  revert cards names. induction rows as [|row rows IH]; intros cards names.
  - simpl. rewrite app_nil_r, (right_id_L ∅ (∪)). reflexivity.
  - simpl. unfold csv_step.
    destruct (parse_csv_row_ok row) as [[c|] E]; rewrite E; simpl.
    + rewrite IH, <- app_assoc, (assoc_L (∪)). reflexivity.
    + apply IH.
Qed.

(** The loop over the legacy records. *)
Lemma legacy_loop_spec names legacy cards :
  fold_left (legacy_step names) legacy cards =
  cards ++ (Legacy.convert_legacy_to_expert <$> filter (missing_from_csv names) legacy).
Proof.
  revert cards. induction legacy as [|lc legacy IH]; intros cards; simpl.
  - now rewrite app_nil_r.
  - rewrite IH. unfold legacy_step.
    destruct (truthy (lower (default EmptyString (l_name lc)))) eqn:Ht; simpl.
    + unfold lower in Ht. rewrite truthy_map_chars in Ht. apply truthy_true in Ht.
      case_bool_decide as Hin; simpl.
      * rewrite filter_cons_False; [reflexivity|]. intros [_ H]. contradiction.
      * rewrite filter_cons_True by (split; assumption).
        rewrite <- app_assoc. reflexivity.
    + unfold lower in Ht. rewrite truthy_map_chars in Ht. apply truthy_false in Ht.
      rewrite filter_cons_False; [reflexivity|]. intros [H _]. contradiction.
Qed.

Lemma build_cards_spec images legacy rows :
  build_cards images legacy rows =
  Ok (csv_records images rows ++
      (Legacy.convert_legacy_to_expert <$>
         filter (missing_from_csv (csv_names images rows)) legacy)).
Proof.
  unfold build_cards. rewrite csv_loop_spec. simpl.
  rewrite legacy_loop_spec, (left_id_L ∅ (∪)). reflexivity.
Qed.

Lemma csv_records_origin images rows c :
  In c (csv_records images rows) ->
  exists row c0, In row rows /\ Row.parse_csv_row row = Ok (Some c0) /\
                 c = add_image images c0.
Proof.
  unfold csv_records. rewrite in_flat_map. intros (row & Hrow & Hc).
  destruct (Row.parse_csv_row row) as [[c0|]|] eqn:E; simpl in Hc; try easy.
  destruct Hc as [<- | []]. eauto.
Qed.

End Loops.

(** C4 (as the code has it): the list written out is the records of the
    rows followed by the converted legacy records that are missing from
    the rows.  Every record of a row has a non-empty [id] and a non-empty
    [name]; every converted legacy record has a non-empty [name], and its
    [id] is the one of the legacy record, or the empty string when the
    legacy record has none. *)
Theorem C4_ids_and_names images legacy rows :
  Main.build_cards images legacy rows =
    Ok (Props.csv_records images rows ++
        (Legacy.convert_legacy_to_expert <$>
           filter (Props.missing_from_csv (Props.csv_names images rows)) legacy)) /\
  Forall (fun c => id c <> EmptyString /\ name c <> EmptyString)
         (Props.csv_records images rows) /\
  Forall (fun lc => name (Legacy.convert_legacy_to_expert lc) <> EmptyString /\
                    id (Legacy.convert_legacy_to_expert lc)
                    = default EmptyString (l_id lc))
         (filter (Props.missing_from_csv (Props.csv_names images rows)) legacy).
Proof.
  split; [apply build_cards_spec|]. split.
  - apply List.Forall_forall. intros c Hc.
    apply csv_records_origin in Hc. destruct Hc as (row & c0 & _ & Hp & ->).
    rewrite id_add_image, name_add_image.
    apply parse_csv_row_Some in Hp.
    destruct Hp as (Hn & Hi & e & m & p & _ & _ & _ & ->). simpl. auto.
  - apply List.Forall_forall. intros lc Hlc.
    apply list_elem_of_In, list_elem_of_filter in Hlc. destruct Hlc as [[Hn _] _].
    simpl. auto.
Qed.

(** C4, the claim as it is written, fails: a legacy record without [id]
    comes out with an empty [id]. *)
Lemma C4_counterexample :
  exists c, Main.build_cards ∅ [legacy_name_only] [] = Ok [c] /\
            id c = EmptyString.
Proof. eexists. split; vm_compute; reflexivity. Qed.




(** C6 (as the code has it): a record of a row has [image_url] exactly
    when its name is a key of the image map, and then with the value of
    that key; a converted legacy record always has [image_url]: the value
    of the legacy record as it is, or the empty string when the legacy
    record has none. *)
Theorem C6_image_url images legacy rows :
  Main.build_cards images legacy rows =
    Ok (Props.csv_records images rows ++
        (Legacy.convert_legacy_to_expert <$>
           filter (Props.missing_from_csv (Props.csv_names images rows)) legacy)) /\
  (forall c, In c (Props.csv_records images rows) ->
             image_url c = images !! name c) /\
  (forall lc, image_url (Legacy.convert_legacy_to_expert lc)
              = Some (default EmptyString (l_image_url lc))) /\
  (forall lc url, l_image_url lc = Some url ->
                  image_url (Legacy.convert_legacy_to_expert lc) = Some url).
Proof.
  split; [apply build_cards_spec|]. split; [|split].
  - intros c Hc. apply csv_records_origin in Hc.
    destruct Hc as (row & c0 & _ & Hp & ->).
    rewrite name_add_image. apply parse_csv_row_Some in Hp.
    destruct Hp as (_ & _ & e & m & p & _ & _ & _ & ->).
    unfold Main.add_image. simpl. now destruct (images !! _).
  - reflexivity.
  - intros lc url H. simpl. now rewrite H.
Qed.

Lemma C6_image_url_witness :
  (exists c, In c (Props.csv_records {["Test Unit" := "/img/1.png"]} [row_test_unit]) /\
             image_url c = Some "/img/1.png") /\
  image_url (Legacy.convert_legacy_to_expert
               {| l_id := None; l_name := Some "Old Card"; l_rarity := None;
                  l_domain := None; l_type := None; l_tags := None; l_cost := None;
                  l_stats := None; l_ability := None;
                  l_image_url := Some "img/old.png" |})
  = Some "img/old.png".
Proof.
  destruct (C6_image_url {["Test Unit" := "/img/1.png"]} [] [row_test_unit])
    as (_ & H1 & _ & H2).
  split.
  - assert (E : exists c, Props.csv_records {["Test Unit" := "/img/1.png"]} [row_test_unit] = [c]
                          /\ name c = "Test Unit")
      by (eexists; split; vm_compute; reflexivity).
    destruct E as (c & E & En). exists c.
    assert (Hin : In c (Props.csv_records {["Test Unit" := "/img/1.png"]} [row_test_unit]))
      by (rewrite E; now left).
    split; [exact Hin|]. rewrite (H1 c Hin), En. vm_compute. reflexivity.
  - apply H2. reflexivity.
Defined.

(** C6, the claim as it is written, fails: a legacy record without
    [image_url] gives a record that has one, the empty string. *)
Lemma C6_counterexample :
  l_image_url legacy_name_only = None /\
  image_url (Legacy.convert_legacy_to_expert legacy_name_only) = Some EmptyString /\
  exists c, Main.build_cards ∅ [legacy_name_only] [] = Ok [c] /\
            image_url c <> None.
Proof.
  split; [reflexivity|]. split; [reflexivity|].
  eexists. split; vm_compute; [reflexivity | congruence].
Qed.

(** [record_of row c E]: evaluate the parser on a closed row, naming the
    record [c] and the equation [E]. *)
Ltac record_of row c E :=
  let H := fresh in
  assert (H : exists c, Row.parse_csv_row row = Ok (Some c))
    by (eexists; vm_compute; reflexivity);
  destruct H as [c E].

(** [ascii_record_of row c E A]: the same, with the proof [A] that the
    cells of the row are ASCII. *)
Ltac ascii_record_of row c E A :=
  record_of row c E;
  assert (A : Props.ascii_row row = true) by ascii_cells.

(** ** Domains *)

Section Domains.
Import Row Props.


Lemma blank_spec field :
  blank field = negb (truthy (strip field) &&
                      negb (String.eqb (lower (strip field)) "nan")).
Proof. unfold blank. now rewrite negb_andb, negb_involutive. Qed.







End Domains.







(** ** Power, energy and might *)

Section Stats.
Import Row Props.







Lemma parse_csv_row_stats row c :
  parse_csv_row row = Ok (Some c) ->
  parse_number (strip (get row "Energy")) = Ok (energy (card_stats c)) /\
  parse_number (strip (get row "Might")) = Ok (might (card_stats c)) /\
  parse_power (strip (get row "Power")) = Ok (power (card_stats c)).
Proof.
  intros Hp. apply parse_csv_row_Some in Hp.
  destruct Hp as (_ & _ & e & m & p & He & Hm & Hpw & ->). simpl. auto.
Qed.

Lemma Ok_inj {A} (a b : A) : Ok a = Ok b -> a = b.
Proof. congruence. Qed.

End Stats.



(** C10: the row parser never raises: for every row it returns a record
    or nothing.  A column that the row does not have reads as the empty
    string, so that a row with a name and a collector number only gives
    the record of the default values; and when [float] raises
    [ValueError] on the [Energy] or the [Might] column, that value of the
    record is absent. *)
Theorem C10_parse_total :
  (forall row, exists r, Row.parse_csv_row row = Ok r) /\
  (forall row key, row !! key = None -> Row.get row key = EmptyString) /\
  (forall n i,
     strip n <> EmptyString -> strip i <> EmptyString ->
     Row.parse_csv_row (<["Name" := n]> (<["Collector Number" := i]> ∅))
     = Ok (Some {| id := strip i; name := strip n; rarity := EmptyString;
                   domain := "Colorless"; type_line := "unit";
                   card_stats := {| energy := None; might := None; power := None |};
                   card_rules_text := {| raw := EmptyString; keywords := [] |};
                   supertypes := None; tags := None; image_url := None |})) /\
  (forall row c,
     Row.parse_csv_row row = Ok (Some c) ->
     (PyFloat.py_float (strip (Row.get row "Energy")) = Raise ValueError ->
      energy (card_stats c) = None) /\
     (PyFloat.py_float (strip (Row.get row "Might")) = Raise ValueError ->
      might (card_stats c) = None)).
Proof.
  split; [exact parse_csv_row_ok|]. split; [|split].
  - intros row key H. unfold Row.get. now rewrite H.
  - intros n i Hn Hi.
    set (row := <["Name" := n]> (<["Collector Number" := i]> ∅) : gmap string string).
    assert (Gn : Row.get row "Name" = n) by reflexivity.
    assert (Gi : Row.get row "Collector Number" = i) by reflexivity.
    unfold Row.parse_csv_row. rewrite Gn, Gi.
    apply truthy_true in Hn, Hi. rewrite Hn, Hi. reflexivity.
  - intros row c Hp. destruct (parse_csv_row_stats row c Hp) as (He & Hm & _).
    split; intros H; apply Ok_inj.
    + rewrite <- He. now apply parse_number_caught.
    + rewrite <- Hm. now apply parse_number_caught.
Qed.

Lemma C10_parse_total_witness :
  Row.get row_test_unit "Energy" = EmptyString /\
  (exists c, Row.parse_csv_row (<["Name" := " Test Unit "]> (<["Collector Number" := "001"]> ∅))
             = Ok (Some c) /\ name c = "Test Unit" /\ type_line c = "unit") /\
  exists c, Row.parse_csv_row row_bad_numbers = Ok (Some c) /\
            energy (card_stats c) = None /\ might (card_stats c) = None.
Proof.
  destruct C10_parse_total as (_ & Hget & Hdef & Hnum).
  split; [|split].
  - apply Hget. vm_compute. reflexivity.
  - eexists. split; [apply Hdef; vm_compute; congruence|].
    split; vm_compute; reflexivity.
  - record_of row_bad_numbers c E. exists c. split; [exact E|].
    destruct (Hnum _ c E) as [H1 H2].
    split; [apply H1 | apply H2]; vm_compute; reflexivity.
Defined.
(** * Further properties *)

(** ** Strings, continued *)

Lemma append_cons c a b : String c a +:+ b = String c (a +:+ b).
Proof. reflexivity. Qed.

Lemma append_nil_l s : EmptyString +:+ s = s.
Proof. reflexivity. Qed.

Lemma append_nil_r s : s +:+ EmptyString = s.
Proof.
  induction s as [|c s IH]; [reflexivity|]. now rewrite append_cons, IH.
Qed.

Lemma append_assoc a b c : (a +:+ b) +:+ c = a +:+ (b +:+ c).
Proof.
  induction a as [|x a IH]; [reflexivity|]. now rewrite !append_cons, IH.
Qed.

Lemma startswith_app pre s : startswith pre (pre +:+ s) = true.
Proof.
  induction pre as [|c pre IH]; [reflexivity|].
  rewrite append_cons. cbn [startswith]. now rewrite Ascii.eqb_refl, IH.
Qed.

Lemma contains_startswith sub s : startswith sub s = true -> contains sub s = true.
Proof. intros H. destruct s; simpl; now rewrite H. Qed.

Lemma contains_cons sub c s : contains sub s = true -> contains sub (String c s) = true.
Proof. intros H. cbn [contains]. rewrite H. apply orb_true_r. Qed.

Lemma contains_app sub pre s : contains sub s = true -> contains sub (pre +:+ s) = true.
Proof.
  intros H. induction pre as [|c pre IH]; [exact H|].
  rewrite append_cons. now apply contains_cons.
Qed.

Lemma lower_app a b : lower (a +:+ b) = lower a +:+ lower b.
Proof.
  unfold lower. induction a as [|c a IH]; [reflexivity|].
  rewrite append_cons. cbn [map_chars]. now rewrite IH.
Qed.

Lemma all_chars_app p a b :
  Props.all_chars p (a +:+ b) = Props.all_chars p a && Props.all_chars p b.
Proof.
  induction a as [|c a IH]; [reflexivity|].
  rewrite append_cons. cbn [Props.all_chars]. now rewrite IH, andb_assoc.
Qed.

(** [span] cuts its argument in two, the first part in the class. *)
Lemma span_spec p s :
  s = (span p s).1 +:+ (span p s).2 /\ Props.all_chars p (span p s).1 = true.
Proof.
  induction s as [|c s [IH1 IH2]]; cbn [span]; [auto|].
  destruct (p c) eqn:Hc; [|auto].
  destruct (span p s) as [a b]. cbn [fst snd Props.all_chars] in *.
  rewrite append_cons, Hc, <- IH1. auto.
Qed.

(** The class stops [span] where the first part ends. *)
Lemma span_app p a b :
  Props.all_chars p a = true ->
  match b with EmptyString => true | String c _ => negb (p c) end = true ->
  span p (a +:+ b) = (a, b).
Proof.
  intros Ha Hb. induction a as [|c a IH].
  - rewrite append_nil_l. destruct b as [|c b]; [reflexivity|]. cbn [span].
    apply negb_true_iff in Hb. now rewrite Hb.
  - cbn [Props.all_chars] in Ha. apply andb_true_iff in Ha. destruct Ha as [H1 H2].
    rewrite append_cons. cbn [span]. rewrite H1, (IH H2). reflexivity.
Qed.

Lemma has_char_false_all c s :
  Props.has_char c s = false <->
  Props.all_chars (fun a => negb (Ascii.eqb a c)) s = true.
Proof.
  induction s as [|a s IH]; simpl; [easy|].
  rewrite orb_false_iff, andb_true_iff, negb_true_iff, IH. reflexivity.
Qed.

(** ** Keyword extractor, continued *)

Section Vocabulary.
Import Keywords.

Lemma known_keywords_NoDup : NoDup known_keywords.
Proof. apply (bool_decide_unpack _). vm_compute. exact I. Qed.

Lemma literal_ci_startswith lit s r :
  literal_ci lit s = Some r -> startswith (lower lit) (lower s) = true.
Proof.
  revert s. induction lit as [|a lit IH]; intros [|b s] H;
    cbn [literal_ci] in H; try reflexivity; try discriminate.
  unfold lower. cbn [map_chars startswith].
  destruct (Ascii.eqb_spec (lower_char a) (lower_char b)) as [E | E]; [|discriminate].
  cbn [andb]. now apply IH.
Qed.

Lemma usage_here_contains kw s :
  usage_here kw s = true -> contains (lower kw) (lower s) = true.
Proof.
  destruct s as [|c s]; [discriminate|]. intros H.
  assert (L : exists r, literal_ci kw s = Some r).
  { unfold usage_here in H.
    destruct (literal_ci kw s) as [r|]; [eauto|].
    destruct c as [[] [] [] [] [] [] [] []]; discriminate. }
  destruct L as [r L]. apply literal_ci_startswith in L.
  unfold lower. cbn [map_chars]. apply contains_cons, contains_startswith. exact L.
Qed.

(** The test [kw.lower() in text_lower] follows from the search of the
    pattern. *)
Lemma usage_search_contains kw text :
  usage_search kw text = true -> contains (lower kw) (lower text) = true.
Proof.
  induction text as [|c s IH]; intros H.
  - cbn in H. discriminate.
  - cbn [usage_search] in H. apply orb_true_iff in H. destruct H as [H | H].
    + now apply usage_here_contains.
    + unfold lower. cbn [map_chars]. apply contains_cons. now apply IH.
Qed.

Lemma known_step_spec text acc kw :
  known_step text acc kw =
  if usage_search kw text && negb (mem kw acc) then acc ++ [kw] else acc.
Proof.
  unfold known_step.
  destruct (usage_search kw text) eqn:U; cbn.
  - rewrite (usage_search_contains _ _ U). cbn. now destruct (mem kw acc).
  - now destruct (contains (lower kw) (lower text) && negb (mem kw acc)).
Qed.

Lemma mem_app_other kw k acc :
  kw <> k -> mem kw (acc ++ [k]) = mem kw acc.
Proof.
  intros Hne. destruct (mem kw acc) eqn:M.
  - apply mem_In. apply in_or_app. left. now apply mem_In.
  - apply mem_not_In. intros H. apply in_app_or in H.
    destruct H as [H | [H | []]].
    + apply mem_not_In in M. contradiction.
    + congruence.
Qed.

(** The loop over a vocabulary without repetition appends the keywords
    that the text uses and that are not entries at the start. *)
Lemma known_fold_spec text ks acc :
  NoDup ks ->
  fold_left (known_step text) ks acc =
  acc ++ List.filter (fun kw => usage_search kw text && negb (mem kw acc)) ks.
Proof.
  intros Hnd. revert acc. induction Hnd as [|k ks Hk Hnd IH]; intros acc.
  - cbn. now rewrite app_nil_r.
  - cbn [fold_left List.filter]. rewrite known_step_spec.
    destruct (usage_search k text && negb (mem k acc)) eqn:C.
    + rewrite IH, <- app_assoc. cbn. f_equal. f_equal.
      apply List.filter_ext_in. intros kw Hin.
      rewrite mem_app_other; [reflexivity|].
      intros ->. apply Hk. now apply list_elem_of_In.
    + apply IH.
Qed.

End Vocabulary.

Lemma extract_keywords_spec (text : string) :
  Keywords.extract_keywords text =
  Keywords.bracket_pass text ++
  List.filter (fun kw => Keywords.usage_search kw text &&
                         negb (mem kw (Keywords.bracket_pass text)))
              Keywords.known_keywords.
Proof. apply known_fold_spec, known_keywords_NoDup. Qed.

(** X1: for ASCII text, the result of the extractor is the bracket pass
    followed by
    the known keywords, in the order of the vocabulary, that the text
    uses in the form [kw], [kw N] or (kw and that are not entries of the
    bracket pass. *)
Theorem X1_extract_closed_form (text : string) :
  Props.is_ascii text = true ->
  Keywords.extract_keywords text =
  Keywords.bracket_pass text ++
  List.filter (fun kw => Keywords.usage_search kw text &&
                         negb (mem kw (Keywords.bracket_pass text)))
              Keywords.known_keywords.
Proof. intros _. apply extract_keywords_spec. Qed.

Lemma X1_extract_closed_form_witness :
  Keywords.extract_keywords "Strike! (Stun it) [Fury] stunning"
  = ["Fury"; "Stun"].
Proof.
  rewrite (X1_extract_closed_form "Strike! (Stun it) [Fury] stunning" eq_refl).
  vm_compute. reflexivity.
Defined.

Section Duplicates.
Import Keywords.

Lemma filter_In_iff {A} (f : A -> bool) l x :
  In x (List.filter f l) <-> In x l /\ f x = true.
Proof. apply List.filter_In. Qed.

Lemma NoDup_filter_bool {A} (f : A -> bool) l : NoDup l -> NoDup (List.filter f l).
Proof.
  induction 1 as [|x l Hx Hnd IH]; cbn; [constructor|].
  destruct (f x); [|exact IH]. constructor; [|exact IH].
  rewrite list_elem_of_In, filter_In_iff, <- list_elem_of_In. tauto.
Qed.

End Duplicates.

Lemma extract_NoDup_iff (text : string) :
  NoDup (Keywords.extract_keywords text) <-> NoDup (Keywords.bracket_pass text).
Proof.
  rewrite extract_keywords_spec. rewrite NoDup_app. split.
  - tauto.
  - intros H. split; [exact H|]. split.
    + intros x Hx Hf. apply list_elem_of_In, filter_In_iff in Hf.
      destruct Hf as [_ Hf]. apply andb_true_iff in Hf. destruct Hf as [_ Hf].
      apply negb_true_iff, mem_not_In in Hf. apply Hf. now apply list_elem_of_In.
    + apply NoDup_filter_bool, known_keywords_NoDup.
Qed.

(** X2: the result has a repeated entry exactly when the bracket pass
    has one: the loop over the vocabulary never repeats an entry. *)
Theorem X2_duplicates_from_bracket_pass (text : string) :
  NoDup (Keywords.extract_keywords text) <-> NoDup (Keywords.bracket_pass text).
Proof. apply extract_NoDup_iff. Qed.

Section Usage.
Import Keywords.

Lemma literal_ci_app lit lit' rest :
  lower lit' = lower lit -> literal_ci lit (lit' +:+ rest) = Some rest.
Proof.
  revert lit'. induction lit as [|a lit IH]; intros [|b lit'] H;
    unfold lower in H; cbn [map_chars] in H; try discriminate.
  - reflexivity.
  - injection H as Hc Hr. rewrite append_cons. cbn [literal_ci].
    rewrite Hc, Ascii.eqb_refl. now apply IH.
Qed.

Lemma usage_search_here kw s : usage_here kw s = true -> usage_search kw s = true.
Proof. intros H. destruct s; cbn [usage_search]; now rewrite H. Qed.

Lemma usage_search_app kw pre s :
  usage_search kw s = true -> usage_search kw (pre +:+ s) = true.
Proof.
  intros H. induction pre as [|c pre IH]; [exact H|].
  rewrite append_cons. cbn [usage_search]. rewrite IH. apply orb_true_r.
Qed.

Lemma space_not_digit c : is_space c = true -> is_digit c = false.
Proof. destruct c as [[] [] [] [] [] [] [] []]; vm_compute; congruence. Qed.

(** White space and digits before the closing bracket are accepted. *)
Lemma number_and_close_number spaces digits post :
  spaces <> EmptyString -> Props.all_chars is_space spaces = true ->
  digits <> EmptyString -> Props.all_chars is_digit digits = true ->
  number_and_close (spaces +:+ digits +:+ "]" +:+ post) = true.
Proof.
  intros Hs As Hd Ad. unfold number_and_close.
  rewrite (span_app is_space spaces (digits +:+ "]" +:+ post) As).
  - rewrite (span_app is_digit digits ("]" +:+ post) Ad) by reflexivity.
    apply truthy_true in Hs, Hd. rewrite Hs, Hd.
    rewrite startswith_app. apply orb_true_r.
  - destruct digits as [|d digits]; [contradiction|].
    rewrite append_cons. cbn [Props.all_chars] in Ad.
    apply andb_true_iff in Ad. destruct Ad as [Ad _].
    destruct (is_space d) eqn:E; [|reflexivity].
    apply space_not_digit in E. congruence.
Qed.

Lemma in_extract_of_usage kw text :
  In kw known_keywords -> usage_search kw text = true ->
  In kw (extract_keywords text).
Proof.
  intros Hk Hu. rewrite extract_keywords_spec. apply in_or_app.
  destruct (mem kw (bracket_pass text)) eqn:M.
  - left. now apply mem_In.
  - right. apply List.filter_In. split; [exact Hk|]. now rewrite Hu, M.
Qed.

End Usage.

(** X3: a known keyword is an entry of the result whenever the text
    has it, in any letter case, after an opening parenthesis, between
    brackets, or between brackets and followed by white space and a
    number. *)
Theorem X3_annotated_keyword_detected (kw kw' pre post : string) :
  In kw Keywords.known_keywords ->
  lower kw' = lower kw ->
  In kw (Keywords.extract_keywords (pre +:+ "(" +:+ kw' +:+ post)) /\
  In kw (Keywords.extract_keywords (pre +:+ "[" +:+ kw' +:+ "]" +:+ post)) /\
  forall spaces digits,
    spaces <> EmptyString -> Props.all_chars is_space spaces = true ->
    digits <> EmptyString -> Props.all_chars is_digit digits = true ->
    In kw (Keywords.extract_keywords
             (pre +:+ "[" +:+ kw' +:+ spaces +:+ digits +:+ "]" +:+ post)).
Proof.
  intros Hk Hl. split; [|split].
  - apply in_extract_of_usage; [exact Hk|].
    apply usage_search_app, usage_search_here.
    change ("(" +:+ kw' +:+ post) with (String "(" (kw' +:+ post)).
    cbn [Keywords.usage_here]. now rewrite (literal_ci_app kw kw' post Hl).
  - apply in_extract_of_usage; [exact Hk|].
    apply usage_search_app, usage_search_here.
    change ("[" +:+ kw' +:+ "]" +:+ post) with (String "[" (kw' +:+ "]" +:+ post)).
    cbn [Keywords.usage_here]. now rewrite (literal_ci_app kw kw' _ Hl).
  - intros spaces digits Hs As Hd Ad.
    apply in_extract_of_usage; [exact Hk|].
    apply usage_search_app, usage_search_here.
    change ("[" +:+ kw' +:+ spaces +:+ digits +:+ "]" +:+ post)
      with (String "[" (kw' +:+ spaces +:+ digits +:+ "]" +:+ post)).
    cbn [Keywords.usage_here]. rewrite (literal_ci_app kw kw' _ Hl).
    now apply number_and_close_number.
Qed.

Lemma X3_annotated_keyword_detected_witness :
  In "Lifesteal" (Keywords.extract_keywords "Heals. (LIFESTEAL: gain might)") /\
  In "Assault" (Keywords.extract_keywords "x [assault  12] y").
Proof.
  assert (Hk1 : In "Lifesteal" Keywords.known_keywords) by (vm_compute; tauto).
  assert (Hk2 : In "Assault" Keywords.known_keywords) by (vm_compute; tauto).
  split.
  - destruct (X3_annotated_keyword_detected "Lifesteal" "LIFESTEAL" "Heals. "
                ": gain might)" Hk1 eq_refl) as (H & _). exact H.
  - destruct (X3_annotated_keyword_detected "Assault" "assault" "x " " y"
                Hk2 eq_refl) as (_ & _ & H).
    apply (H "  " "12"); (discriminate || reflexivity).
Defined.

Section NoBrackets.
Import Keywords.

Lemma findall_no_bracket s :
  Props.has_char "[" s = false -> findall_from 0 s = [].
Proof.
  induction s as [|c s IH]; [reflexivity|]. cbn [Props.has_char].
  intros H. apply orb_false_iff in H. destruct H as [Hc Hs].
  cbn [findall_from].
  assert (E : bracket_here (String c s) = None).
  { unfold bracket_here. apply Ascii.eqb_neq in Hc.
    destruct c as [[] [] [] [] [] [] [] []]; try reflexivity. congruence. }
  rewrite E. now apply IH.
Qed.

Lemma usage_no_bracket kw s :
  Props.has_char "[" s = false -> Props.has_char "(" s = false ->
  usage_search kw s = false.
Proof.
  induction s as [|c s IH]; [reflexivity|]. cbn [Props.has_char].
  intros H1 H2. apply orb_false_iff in H1, H2.
  destruct H1 as [Hb Hs1], H2 as [Hp Hs2].
  cbn [usage_search]. rewrite (IH Hs1 Hs2), orb_false_r.
  unfold usage_here. apply Ascii.eqb_neq in Hb, Hp.
  destruct c as [[] [] [] [] [] [] [] []]; try reflexivity; congruence.
Qed.

Lemma filter_none {A} (f : A -> bool) l :
  (forall x, f x = false) -> List.filter f l = [].
Proof.
  intros H. induction l as [|x l IH]; cbn; [reflexivity|]. now rewrite H.
Qed.

End NoBrackets.

(** X4: a text without opening bracket and without opening parenthesis
    has no keyword. *)
Theorem X4_no_bracket_no_keyword (text : string) :
  Props.has_char "[" text = false ->
  Props.has_char "(" text = false ->
  Keywords.extract_keywords text = [].
Proof.
  intros Hb Hp. rewrite extract_keywords_spec.
  unfold Keywords.bracket_pass, Keywords.bracket_matches.
  rewrite (findall_no_bracket text Hb). cbn [fold_left app].
  apply filter_none. intros kw. now rewrite (usage_no_bracket kw text Hb Hp).
Qed.

Lemma X4_no_bracket_no_keyword_witness :
  Keywords.extract_keywords "Deal 2 damage to a unit. Overwhelm is nice]" = [].
Proof. apply X4_no_bracket_no_keyword; vm_compute; reflexivity. Defined.

Section BracketMatches.
Import Keywords.

Lemma span_stop p s a c b : span p s = (a, String c b) -> p c = false.
Proof.
  revert a. induction s as [|x s IH]; intros a H; cbn [span] in H; [discriminate|].
  destruct (p x) eqn:Hx.
  - destruct (span p s) as [a' b'] eqn:E. injection H as _ Hb. subst b'.
    now apply (IH a').
  - injection H as _ Hc. congruence.
Qed.

Lemma length_append a b :
  String.length (a +:+ b) = String.length a + String.length b.
Proof.
  induction a as [|c a IH]; [reflexivity|]. rewrite append_cons. cbn. now rewrite IH.
Qed.

(** A match at the start of [s] is a non-empty text without closing
    bracket, and [s] starts with it between brackets. *)
Lemma bracket_here_spec s inner :
  bracket_here s = Some inner ->
  inner <> EmptyString /\ Props.all_chars not_rbracket inner = true /\
  exists rest, s = "[" +:+ inner +:+ "]" +:+ rest.
Proof.
  destruct s as [|c r]; [discriminate|]. unfold bracket_here.
  destruct (Ascii.eqb_spec c "[") as [-> | Hc].
  - pose proof (span_spec not_rbracket r) as [Hr Ha].
    pose proof (span_stop not_rbracket r) as Hs.
    destruct (span not_rbracket r) as [a b]. cbn [fst snd] in *.
    destruct a as [|a0 a]; [discriminate|]. destruct b as [|b0 b]; [discriminate|].
    intros H. injection H as <-. split; [discriminate|]. split; [exact Ha|].
    exists b. specialize (Hs _ _ _ eq_refl). unfold not_rbracket in Hs.
    apply negb_false_iff, Ascii.eqb_eq in Hs. subst b0. now rewrite Hr.
  - destruct c as [[] [] [] [] [] [] [] []]; try discriminate. congruence.
Qed.

Lemma not_rbracket_has_char s :
  Props.all_chars not_rbracket s = true <-> Props.has_char "]" s = false.
Proof. symmetry. apply has_char_false_all. Qed.

Lemma findall_shape skip s :
  Forall (fun m => m <> EmptyString /\ Props.has_char "]" m = false /\
                   contains ("[" +:+ m +:+ "]") s = true)
         (findall_from skip s).
Proof.
  revert skip. induction s as [|c r IH]; intros skip; cbn [findall_from]; [constructor|].
  assert (Up : forall k,
    Forall (fun m => m <> EmptyString /\ Props.has_char "]" m = false /\
                     contains ("[" +:+ m +:+ "]") (String c r) = true)
           (findall_from k r)).
  { intros k. eapply List.Forall_impl; [|apply IH].
    intros m (H1 & H2 & H3). auto using contains_cons. }
  destruct skip as [|k]; [|apply Up].
  destruct (bracket_here (String c r)) as [inner|] eqn:E; [|apply Up].
  constructor; [|apply Up].
  apply bracket_here_spec in E. destruct E as (H1 & H2 & rest & Hs).
  split; [exact H1|]. split; [now apply not_rbracket_has_char|].
  apply contains_startswith. rewrite Hs.
  change ("[" +:+ inner +:+ "]" +:+ rest) with (String "[" (inner +:+ "]" +:+ rest)).
  change ("[" +:+ inner +:+ "]") with (String "[" (inner +:+ "]")).
  rewrite <- (append_assoc inner "]" rest). rewrite <- append_cons.
  apply startswith_app.
Qed.

Lemma findall_skip a b :
  findall_from (String.length a) (a +:+ b) = findall_from 0 b.
Proof.
  induction a as [|c a IH]; [reflexivity|].
  rewrite append_cons. cbn [String.length findall_from]. exact IH.
Qed.

Lemma bracket_here_match inner post :
  inner <> EmptyString -> Props.has_char "]" inner = false ->
  bracket_here ("[" +:+ inner +:+ "]" +:+ post) = Some inner.
Proof.
  intros Hn Hc.
  change ("[" +:+ inner +:+ "]" +:+ post) with (String "[" (inner +:+ "]" +:+ post)).
  cbn [bracket_here].
  rewrite (span_app not_rbracket inner ("]" +:+ post)); [| |reflexivity].
  - destruct inner; [contradiction | reflexivity].
  - now apply not_rbracket_has_char.
Qed.

End BracketMatches.

(** X5: every bracket match is a non-empty text without closing
    bracket that the text has between an opening and a closing bracket. *)
Theorem X5_bracket_matches_shape (text : string) :
  Forall (fun m => m <> EmptyString /\ Props.has_char "]" m = false /\
                   contains ("[" +:+ m +:+ "]") text = true)
         (Keywords.bracket_matches text).
Proof. apply findall_shape. Qed.

(** X6: the bracket matches are found from the left, one after the
    other: after a part without opening bracket, a non-empty text
    without closing bracket between brackets is the first match, and the
    search goes on behind its closing bracket. *)
Theorem X6_bracket_matches_first (pre inner post : string) :
  Props.has_char "[" pre = false ->
  inner <> EmptyString ->
  Props.has_char "]" inner = false ->
  Keywords.bracket_matches (pre +:+ "[" +:+ inner +:+ "]" +:+ post)
  = inner :: Keywords.bracket_matches post.
Proof.
  intros Hp Hn Hc. unfold Keywords.bracket_matches.
  induction pre as [|c pre IH].
  - rewrite append_nil_l.
    pose proof (bracket_here_match inner post Hn Hc) as E.
    change ("[" +:+ inner +:+ "]" +:+ post) with (String "[" (inner +:+ "]" +:+ post)) in *.
    cbn [Keywords.findall_from]. rewrite E. f_equal.
    rewrite <- (append_assoc inner "]" post).
    replace (S (String.length inner)) with (String.length (inner +:+ "]"))
      by (rewrite length_append; cbn; lia).
    apply findall_skip.
  - cbn [Props.has_char] in Hp. apply orb_false_iff in Hp. destruct Hp as [Hc0 Hp].
    rewrite append_cons. cbn [Keywords.findall_from].
    assert (E : Keywords.bracket_here (String c (pre +:+ "[" +:+ inner +:+ "]" +:+ post)) = None).
    { unfold Keywords.bracket_here. apply Ascii.eqb_neq in Hc0.
      destruct c as [[] [] [] [] [] [] [] []]; try reflexivity. congruence. }
    rewrite E. now apply IH.
Qed.

Lemma X6_bracket_matches_first_witness :
  Keywords.bracket_matches "Deal ] 2. [Assault 2] then [Stun]"
  = ["Assault 2"; "Stun"].
Proof.
  assert (Hn : "Assault 2" <> EmptyString) by discriminate.
  exact (X6_bracket_matches_first "Deal ] 2. " "Assault 2" " then [Stun]"
           eq_refl Hn eq_refl).
Defined.

Section PlainKeywords.
Import Keywords.

Lemma all_chars_rev_onto p acc s :
  Props.all_chars p (rev_onto acc s) = Props.all_chars p acc && Props.all_chars p s.
Proof.
  revert acc. induction s as [|c s IH]; intros acc; cbn [rev_onto Props.all_chars].
  - now rewrite andb_true_r.
  - rewrite IH. cbn [Props.all_chars]. destruct (p c), (Props.all_chars p acc); reflexivity.
Qed.

Lemma all_chars_rev p s : Props.all_chars p (rev s) = Props.all_chars p s.
Proof. unfold rev. now rewrite all_chars_rev_onto. Qed.

Lemma all_chars_lstrip p s :
  Props.all_chars p s = true -> Props.all_chars p (lstrip s) = true.
Proof.
  induction s as [|c s IH]; [easy|]. intros H. cbn [lstrip].
  destruct (is_space c); [|exact H].
  cbn [Props.all_chars] in H. apply andb_true_iff in H. now apply IH.
Qed.

Lemma all_chars_rstrip p s :
  Props.all_chars p s = true -> Props.all_chars p (rstrip s) = true.
Proof.
  induction s as [|c s IH]; [easy|]. intros H. cbn [rstrip].
  cbn [Props.all_chars] in H. apply andb_true_iff in H. destruct H as [H1 H2].
  destruct (is_space c && negb (truthy (rstrip s))); [reflexivity|].
  cbn [Props.all_chars]. now rewrite H1, IH.
Qed.

Lemma all_chars_strip p s :
  Props.all_chars p s = true -> Props.all_chars p (strip s) = true.
Proof. intros H. now apply all_chars_rstrip, all_chars_lstrip. Qed.


(** Without a digit there is no number to cut. *)
Lemma cut_number_no_digit kw :
  Props.all_chars (fun c => negb (is_digit c)) kw = true -> cut_number kw = None.
Proof.
  intros H. rewrite <- all_chars_rev in H. unfold cut_number.
  destruct (rev kw) as [|c r]; [reflexivity|].
  cbn [Props.all_chars] in H. apply andb_true_iff in H. destruct H as [Hc _].
  apply negb_true_iff in Hc.
  cbn [span]. rewrite Hc. now destruct (span is_space (String c r)).
Qed.

Lemma sub_trailing_number_no_digit kw :
  Props.all_chars (fun c => negb (is_digit c)) kw = true -> sub_trailing_number kw = kw.
Proof.
  intros H. unfold sub_trailing_number. rewrite (cut_number_no_digit kw H).
  pose proof H as Hr. rewrite <- all_chars_rev in Hr.
  destruct (rev kw) as [|c r]; [reflexivity|].
  cbn [Props.all_chars] in Hr. apply andb_true_iff in Hr. destruct Hr as [_ Hr].
  rewrite <- all_chars_rev in Hr. rewrite (cut_number_no_digit _ Hr).
  destruct c as [[] [] [] [] [] [] [] []]; reflexivity.
Qed.

Lemma findall_all_chars p skip s :
  Props.all_chars p s = true ->
  Forall (fun m => Props.all_chars p m = true) (findall_from skip s).
Proof.
  revert skip. induction s as [|c r IH]; intros skip H; cbn [findall_from]; [constructor|].
  pose proof H as Hr. cbn [Props.all_chars] in Hr.
  apply andb_true_iff in Hr. destruct Hr as [_ Hr].
  destruct skip as [|k]; [|now apply IH].
  destruct (bracket_here (String c r)) as [inner|] eqn:E; [|now apply IH].
  constructor; [|now apply IH].
  apply bracket_here_spec in E. destruct E as (_ & _ & rest & Hs).
  rewrite Hs in H.
  change ("[" +:+ inner +:+ "]" +:+ rest) with (String "[" (inner +:+ "]" +:+ rest)) in H.
  cbn [Props.all_chars] in H. rewrite all_chars_app in H.
  apply andb_true_iff in H. destruct H as [_ H].
  apply andb_true_iff in H. tauto.
Qed.

(** When no match carries a number, the bracket loop keeps its list
    without repetition. *)
Lemma bracket_fold_NoDup ms acc :
  Forall (fun m => sub_trailing_number (strip m) = strip m) ms ->
  NoDup acc -> NoDup (fold_left bracket_step ms acc).
Proof.
  intros Hms. revert acc. induction Hms as [|m ms Hm _ IH]; intros acc Hnd; [exact Hnd|].
  cbn [fold_left]. apply IH.
  destruct (bracket_step_cases acc m) as [(-> & _ & Hn) | (-> & _)]; [|exact Hnd].
  rewrite Hm in Hn. apply NoDup_app. split; [exact Hnd|]. split.
  - intros x Hx Hx'. apply list_elem_of_In in Hx, Hx'.
    destruct Hx' as [<- | []]. contradiction.
  - apply NoDup_singleton.
Qed.

End PlainKeywords.

(** X7: for an ASCII text without any digit the result of the
    extractor has no repeated entry. *)
Theorem X7_no_digit_no_duplicate (text : string) :
  Props.is_ascii text = true ->
  Props.all_chars (fun c => negb (is_digit c)) text = true ->
  NoDup (Keywords.extract_keywords text).
Proof.
  intros _ H. apply extract_NoDup_iff.
  unfold Keywords.bracket_pass. apply bracket_fold_NoDup; [|constructor].
  eapply List.Forall_impl; [|apply (findall_all_chars _ 0 text H)].
  intros m Hm. apply sub_trailing_number_no_digit. now apply all_chars_strip.
Qed.

Lemma X7_no_digit_no_duplicate_witness :
  NoDup (Keywords.extract_keywords "[Stun] then [Stun] (Stun again) [stun]").
Proof. apply X7_no_digit_no_duplicate; ascii_cells. Defined.

(** ** Row parser, continued *)

Section Trimming.

Lemma lstrip_head s :
  match lstrip s with
  | EmptyString => True
  | String c _ => is_space c = false
  end.
Proof.
  induction s as [|c s IH]; cbn [lstrip]; [exact I|].
  destruct (is_space c) eqn:E; [exact IH | exact E].
Qed.

Lemma rstrip_idem s : rstrip (rstrip s) = rstrip s.
Proof.
  induction s as [|c s IH]; [reflexivity|]. cbn [rstrip].
  destruct (is_space c && negb (truthy (rstrip s))) eqn:E; [reflexivity|].
  cbn [rstrip]. now rewrite IH, E.
Qed.

Lemma lstrip_rstrip_head s :
  match s with EmptyString => True | String c _ => is_space c = false end ->
  lstrip (rstrip s) = rstrip s.
Proof.
  destruct s as [|c s]; [reflexivity|]. intros H. cbn [rstrip].
  rewrite H. cbn [andb lstrip]. now rewrite H.
Qed.

(** Trimming twice is trimming once. *)
Lemma strip_idem s : strip (strip s) = strip s.
Proof.
  unfold strip. rewrite (lstrip_rstrip_head (lstrip s) (lstrip_head s)).
  apply rstrip_idem.
Qed.

Lemma given_strip t :
  Row.given t = truthy t && negb (String.eqb (lower t) "nan").
Proof.
  unfold Row.given. destruct t as [|a t]; [reflexivity|].
  unfold mem, lower. cbn. now rewrite orb_false_r.
Qed.

Lemma given_blank field : Row.given (strip field) = negb (Props.blank field).
Proof. now rewrite given_strip, blank_spec, negb_involutive. Qed.

End Trimming.

(** X8: a row of ASCII cells gives no record exactly when its name or
    its collector
    number is empty once trimmed; any other row gives a record with the
    trimmed collector number as [id] and the trimmed name as [name]. *)
Theorem X8_row_rejected_iff (row : gmap string string) :
  Props.ascii_row row = true ->
  (Row.parse_csv_row row = Ok None <->
   strip (Row.get row "Name") = EmptyString \/
   strip (Row.get row "Collector Number") = EmptyString) /\
  (strip (Row.get row "Name") <> EmptyString ->
   strip (Row.get row "Collector Number") <> EmptyString ->
   exists c, Row.parse_csv_row row = Ok (Some c) /\
             id c = strip (Row.get row "Collector Number") /\
             name c = strip (Row.get row "Name")).
Proof.
  intros _.
  assert (Some_case :
    strip (Row.get row "Name") <> EmptyString ->
    strip (Row.get row "Collector Number") <> EmptyString ->
    exists c, Row.parse_csv_row row = Ok (Some c) /\
              id c = strip (Row.get row "Collector Number") /\
              name c = strip (Row.get row "Name")).
  { intros Hn Hi. unfold Row.parse_csv_row.
    apply truthy_true in Hn, Hi. rewrite Hn, Hi. cbn [negb].
    destruct (parse_number_ok (strip (Row.get row "Energy"))) as [e ->].
    destruct (parse_number_ok (strip (Row.get row "Might"))) as [m ->].
    destruct (parse_power_ok (strip (Row.get row "Power"))) as [p ->].
    cbn. eexists. split; [reflexivity|]. cbn. auto. }
  split; [|exact Some_case]. split.
  - intros H.
    destruct (String.eqb_spec (strip (Row.get row "Name")) EmptyString) as [E1 | E1];
      [now left|].
    destruct (String.eqb_spec (strip (Row.get row "Collector Number")) EmptyString)
      as [E2 | E2]; [now right|].
    destruct (Some_case E1 E2) as (c & Hc & _). congruence.
  - unfold Row.parse_csv_row. intros [H | H].
    + now rewrite H.
    + rewrite H. now destruct (truthy (strip (Row.get row "Name"))).
Qed.

Lemma X8_row_rejected_iff_witness :
  Row.parse_csv_row (<["Name" := "   "]> row_test_unit) = Ok None /\
  exists c, Row.parse_csv_row row_fury = Ok (Some c) /\ id c = "001".
Proof.
  split.
  - assert (A : Props.ascii_row (<["Name" := "   "]> row_test_unit) = true)
      by ascii_cells.
    apply (X8_row_rejected_iff (<["Name" := "   "]> row_test_unit) A).
    left. vm_compute. reflexivity.
  - assert (A : Props.ascii_row row_fury = true) by ascii_cells.
    destruct (X8_row_rejected_iff row_fury A) as [_ H].
    destruct H as (c & Hc & Hi & _); [vm_compute; congruence..|].
    exists c. split; [exact Hc|]. rewrite Hi. vm_compute. reflexivity.
Defined.

Section TrimmedFields.

Lemma is_space_lower_char c : is_space (lower_char c) = is_space c.
Proof. destruct c as [[] [] [] [] [] [] [] []]; reflexivity. Qed.

Lemma lstrip_lower s : lstrip (lower s) = lower (lstrip s).
Proof.
  unfold lower. induction s as [|c s IH]; [reflexivity|].
  cbn [map_chars lstrip]. rewrite is_space_lower_char.
  destruct (is_space c); [exact IH | reflexivity].
Qed.

Lemma rstrip_lower s : rstrip (lower s) = lower (rstrip s).
Proof.
  unfold lower. induction s as [|c s IH]; [reflexivity|].
  cbn [map_chars rstrip]. rewrite is_space_lower_char, IH, truthy_map_chars.
  now destruct (is_space c && negb (truthy (rstrip s))).
Qed.

(** Lower case and trimming commute. *)
Lemma strip_lower s : strip (lower s) = lower (strip s).
Proof. unfold strip. now rewrite lstrip_lower, rstrip_lower. Qed.

End TrimmedFields.

(** X9: the [id], the [name], the [rarity] and the raw rules text of a
    record of a row have no white space at either end: trimming them
    changes nothing. *)
Theorem X9_record_fields_trimmed (row : gmap string string) (c : card) :
  Row.parse_csv_row row = Ok (Some c) ->
  strip (id c) = id c /\ strip (name c) = name c /\
  strip (rarity c) = rarity c /\
  strip (raw (card_rules_text c)) = raw (card_rules_text c).
Proof.
  intros Hp. apply parse_csv_row_Some in Hp.
  destruct Hp as (_ & _ & e & m & p & _ & _ & _ & ->).
  cbn [id name raw card_rules_text rarity].
  rewrite strip_lower, !strip_idem. auto.
Qed.

Lemma X9_record_fields_trimmed_witness :
  exists c, Row.parse_csv_row (<["Name" := "  Test Unit "]> row_test_unit) = Ok (Some c) /\
            strip (name c) = name c.
Proof.
  record_of (<["Name" := "  Test Unit "]> row_test_unit) c E.
  exists c. split; [exact E|].
  now destruct (X9_record_fields_trimmed _ c E) as (_ & H & _).
Defined.

Section Numbers.
Import Row.

(** The value of [Energy] and of [Might], in one equation. *)
Lemma parse_number_spec s :
  parse_number s =
  Ok (if String.eqb s "-" then None
      else match PyFloat.py_float s with
           | Ok f => Some (StatFloat f)
           | Raise _ => None
           end).
Proof.
  unfold parse_number. destruct s as [|c s]; [reflexivity|].
  unfold mem. cbn [truthy existsb andb orb].
  change (String.eqb (String c s) EmptyString) with false. cbn [orb].
  rewrite orb_false_r.
  destruct (String.eqb (String c s) "-"); [reflexivity|]. cbn [negb].
  now destruct (PyFloat.py_float (String c s)) as [f | []].
Qed.

End Numbers.

(** X10: for a row of ASCII cells, the [energy] of its record is absent
    when the trimmed
    [Energy] column is "-" or [float] rejects it (as it does the empty
    string), and is the float of the trimmed column otherwise; it is
    never a string nor an integer.  The same holds for [might] and the
    [Might] column. *)
Theorem X10_energy_and_might (row : gmap string string) (c : card) :
  Props.ascii_row row = true ->
  Row.parse_csv_row row = Ok (Some c) ->
  forall (column : string) (value : option stat),
    (column = "Energy" /\ value = energy (card_stats c)) \/
    (column = "Might" /\ value = might (card_stats c)) ->
    let s := strip (Row.get row column) in
    (s = "-" -> value = None) /\
    (PyFloat.py_float s = Raise ValueError -> value = None) /\
    (forall f, s <> "-" -> PyFloat.py_float s = Ok f -> value = Some (StatFloat f)) /\
    (forall t, value <> Some (StatStr t)) /\
    (forall n, value <> Some (StatInt n)).
Proof.
  intros _ Hp column value Hcv s.
  destruct (parse_csv_row_stats row c Hp) as (He & Hm & _).
  assert (Hv : Row.parse_number s = Ok value).
  { subst s. destruct Hcv as [[-> ->] | [-> ->]]; assumption. }
  rewrite parse_number_spec in Hv. apply Ok_inj in Hv. subst value.
  repeat split.
  - intros ->. reflexivity.
  - intros ->. now destruct (String.eqb s "-").
  - intros f Hs ->. apply String.eqb_neq in Hs. now rewrite Hs.
  - intros t. destruct (String.eqb s "-"); [discriminate|].
    destruct (PyFloat.py_float s); discriminate.
  - intros n. destruct (String.eqb s "-"); [discriminate|].
    destruct (PyFloat.py_float s); discriminate.
Qed.

Lemma X10_energy_and_might_witness :
  exists c, Row.parse_csv_row (<["Might" := " - "]> (<["Energy" := "2.5"]> row_test_unit))
            = Ok (Some c) /\
            might (card_stats c) = None /\
            energy (card_stats c)
            = Some (StatFloat (S754_finite false 5629499534213120 (-51))).
Proof.
  ascii_record_of (<["Might" := " - "]> (<["Energy" := "2.5"]> row_test_unit)) c E A.
  exists c. split; [exact E|]. split.
  - destruct (X10_energy_and_might _ c A E "Might" (might (card_stats c)))
      as (H & _).
    + right. auto.
    + apply H. vm_compute. reflexivity.
  - destruct (X10_energy_and_might _ c A E "Energy" (energy (card_stats c)))
      as (_ & _ & H & _).
    + left. auto.
    + apply H; vm_compute; congruence.
Defined.

Section WholeNumbers.
Import PyFloat.

Lemma rev_onto_rev_onto s a b : rev_onto a (rev_onto b s) = rev_onto (s +:+ a) b.
Proof.
  revert a b. induction s as [|c s IH]; intros a b; [reflexivity|].
  cbn [rev_onto]. rewrite IH. reflexivity.
Qed.

Lemma rev_involutive s : rev (rev s) = s.
Proof. unfold rev. rewrite rev_onto_rev_onto. cbn. apply append_nil_r. Qed.

Lemma digit_not_c_space c : is_digit c = true -> is_c_space c = false.
Proof. destruct c as [[] [] [] [] [] [] [] []]; vm_compute; congruence. Qed.

Lemma c_lstrip_digits s :
  Props.all_chars is_digit s = true -> c_lstrip s = s.
Proof.
  destruct s as [|c s]; [reflexivity|]. cbn [Props.all_chars c_lstrip].
  intros H. apply andb_true_iff in H. destruct H as [H _].
  now rewrite (digit_not_c_space c H).
Qed.

Lemma c_strip_digits s :
  Props.all_chars is_digit s = true -> c_strip s = s.
Proof.
  intros H. unfold c_strip. rewrite (c_lstrip_digits s H).
  rewrite c_lstrip_digits by now rewrite all_chars_rev.
  apply rev_involutive.
Qed.

Lemma drop_underscores_digits s prev :
  Props.all_chars is_digit s = true ->
  match prev with None => True | Some d => is_digit d = true end ->
  drop_underscores prev s = Some s.
Proof.
  revert prev. induction s as [|c s IH]; intros prev Hs Hp.
  - cbn [drop_underscores]. destruct prev as [d|]; [|reflexivity].
    destruct d as [[] [] [] [] [] [] [] []]; try reflexivity; discriminate.
  - cbn [Props.all_chars] in Hs. apply andb_true_iff in Hs. destruct Hs as [Hc Hs].
    cbn [drop_underscores].
    assert (E : Ascii.eqb c "_" = false).
    { destruct c as [[] [] [] [] [] [] [] []]; try reflexivity; discriminate. }
    rewrite E, Hc, (IH (Some c) Hs Hc).
    destruct prev as [d|]; [|reflexivity].
    destruct d as [[] [] [] [] [] [] [] []]; reflexivity.
Qed.

Lemma sign_digits s :
  Props.all_chars is_digit s = true -> sign s = (false, s).
Proof.
  destruct s as [|c s]; [reflexivity|]. cbn [Props.all_chars].
  intros H. apply andb_true_iff in H. destruct H as [H _].
  destruct c as [[] [] [] [] [] [] [] []]; try reflexivity; discriminate.
Qed.

Lemma round_decimal_whole m : round_decimal false m 0 = of_Z m.
Proof.
  unfold round_decimal, of_Z. destruct (Z.eqb_spec m 0) as [-> | Hm]; [reflexivity|].
  cbn [Z.leb Z.compare cond_Zopp]. now rewrite Z.pow_0_r, Z.mul_1_r.
Qed.

(** [float] of a string of decimal digits is the float of the integer
    that the digits denote. *)
Lemma py_float_digits s :
  s <> EmptyString -> Props.all_chars is_digit s = true ->
  py_float s = Ok (of_Z (digits_value 0 s)).
Proof.
  intros Hn Hd. unfold py_float.
  rewrite (c_strip_digits s Hd), (drop_underscores_digits s None Hd I).
  unfold parse_decimal. rewrite (sign_digits s Hd).
  rewrite <- (append_nil_r s) at 1.
  rewrite (span_app is_digit s EmptyString Hd eq_refl).
  apply truthy_true in Hn. rewrite Hn. cbn [negb andb truthy String.length].
  rewrite append_nil_r. cbn [Z.of_nat Z.opp]. now rewrite round_decimal_whole.
Qed.

End WholeNumbers.

(** X11: when the trimmed [Energy] column (or [Might] column) of a row
    that gives a record is a non-empty string of decimal digits, the
    value of the record is the float of the integer that the digits
    denote. *)
Theorem X11_whole_number_stats (row : gmap string string) (c : card) :
  Row.parse_csv_row row = Ok (Some c) ->
  (forall s, strip (Row.get row "Energy") = s -> s <> EmptyString ->
             Props.all_chars is_digit s = true ->
             energy (card_stats c)
             = Some (StatFloat (PyFloat.of_Z (PyFloat.digits_value 0 s)))) /\
  (forall s, strip (Row.get row "Might") = s -> s <> EmptyString ->
             Props.all_chars is_digit s = true ->
             might (card_stats c)
             = Some (StatFloat (PyFloat.of_Z (PyFloat.digits_value 0 s)))).
Proof.
  intros Hp. destruct (parse_csv_row_stats row c Hp) as (He & Hm & _).
  assert (G : forall s, s <> EmptyString -> Props.all_chars is_digit s = true ->
    Row.parse_number s = Ok (Some (StatFloat (PyFloat.of_Z (PyFloat.digits_value 0 s))))).
  { intros s Hn Hd. rewrite parse_number_spec, (py_float_digits s Hn Hd).
    destruct (String.eqb_spec s "-") as [-> | _]; [discriminate | reflexivity]. }
  split; intros s Hs Hn Hd; apply Ok_inj.
  - rewrite <- He, Hs. now apply G.
  - rewrite <- Hm, Hs. now apply G.
Qed.

Lemma X11_whole_number_stats_witness :
  exists c, Row.parse_csv_row (<["Energy" := " 12 "]> row_test_unit) = Ok (Some c) /\
            energy (card_stats c) = Some (StatFloat (PyFloat.of_Z 12)).
Proof.
  record_of (<["Energy" := " 12 "]> row_test_unit) c E.
  exists c. split; [exact E|].
  destruct (X11_whole_number_stats _ c E) as (H & _).
  apply (H "12"); [vm_compute; reflexivity | discriminate | reflexivity].
Defined.

Section TypeLine.
Import Row.

Lemma lower_join sep l : lower (join sep l) = join (lower sep) (lower <$> l).
Proof.
  induction l as [|x l IH]; [reflexivity|].
  destruct l as [|y l]; [reflexivity|].
  change (join sep (x :: y :: l)) with (x +:+ sep +:+ join sep (y :: l)).
  change (join (lower sep) (lower <$> x :: y :: l))
    with (lower x +:+ lower sep +:+ join (lower sep) (lower <$> y :: l)).
  now rewrite !lower_app, IH.
Qed.

Lemma card_type_lower row : lower (card_type row) = card_type row.
Proof.
  unfold card_type.
  destruct (truthy (lower (strip (get row "types")))); [apply lower_idem | reflexivity].
Qed.

Lemma card_type_not_empty row : card_type row <> EmptyString.
Proof.
  unfold card_type.
  destruct (truthy (lower (strip (get row "types")))) eqn:E; [|discriminate].
  now apply truthy_true.
Qed.

(** Every subtype is the lower case of a trimmed subtype column that
    is not blank. *)
Lemma subtypes_origin row st :
  In st (subtypes row) ->
  exists key, In key subtype_keys /\ Props.blank (get row key) = false /\
              st = lower (strip (get row key)).
Proof.
  unfold subtypes. rewrite in_flat_map. intros (key & Hk & Hs).
  exists key. split; [exact Hk|].
  rewrite given_blank in Hs. destruct (Props.blank (get row key)); cbn in Hs.
  - contradiction.
  - destruct Hs as [<- | []]. auto.
Qed.

Lemma fmap_fixed {A} (f : A -> A) (l : list A) :
  (forall x, In x l -> f x = x) -> f <$> l = l.
Proof.
  induction l as [|x l IH]; intros H; [reflexivity|].
  cbn. rewrite (H x) by now left. f_equal. apply IH. intros y Hy. apply H. now right.
Qed.

Lemma subtypes_lower row : lower <$> subtypes row = subtypes row.
Proof.
  apply fmap_fixed. intros st Hst. apply subtypes_origin in Hst.
  destruct Hst as (key & _ & _ & ->). apply lower_idem.
Qed.

Lemma length_flat_map_le {A B} (f : A -> list B) l n :
  (forall x, length (f x) <= n) -> length (flat_map f l) <= n * length l.
Proof.
  intros H. induction l as [|x l IH]; cbn; [lia|].
  rewrite length_app. specialize (H x). lia.
Qed.

Lemma row_type_line_lower row : lower (row_type_line row) = row_type_line row.
Proof.
  unfold row_type_line. destruct (subtypes row) as [|st sts] eqn:E.
  - apply card_type_lower.
  - rewrite !lower_app, lower_join, card_type_lower, <- E, subtypes_lower.
    reflexivity.
Qed.

End TypeLine.

(** X12: for a row of ASCII cells, the [type_line] of its record is not
    empty and is in
    lower case; it starts with the trimmed, lower-cased [types] column,
    or with "unit" when that column is empty; there are at most five
    subtypes, each the lower case of a trimmed subtype column that is
    neither empty nor [nan]; without subtypes the [type_line] is the
    type alone. *)
Theorem X12_type_line (row : gmap string string) (c : card) :
  Props.ascii_row row = true ->
  Row.parse_csv_row row = Ok (Some c) ->
  type_line c <> EmptyString /\
  lower (type_line c) = type_line c /\
  startswith (Row.card_type row) (type_line c) = true /\
  (strip (Row.get row "types") = EmptyString -> Row.card_type row = "unit") /\
  (strip (Row.get row "types") <> EmptyString ->
   Row.card_type row = lower (strip (Row.get row "types"))) /\
  length (Row.subtypes row) <= 5 /\
  (forall st, In st (Row.subtypes row) ->
     exists key, In key Row.subtype_keys /\ Props.blank (Row.get row key) = false /\
                 st = lower (strip (Row.get row key))) /\
  (Row.subtypes row = [] -> type_line c = Row.card_type row) /\
  (Row.subtypes row <> [] ->
   type_line c = Row.card_type row +:+ " - " +:+ join ", " (Row.subtypes row)).
Proof.
  intros _ Hp. apply parse_csv_row_Some in Hp.
  destruct Hp as (_ & _ & e & m & p & _ & _ & _ & ->). cbn [type_line].
  pose proof (row_type_line_lower row) as Hlow.
  assert (Hne : Row.row_type_line row <> EmptyString).
  { unfold Row.row_type_line. pose proof (card_type_not_empty row) as H.
    destruct (Row.subtypes row); [exact H|].
    destruct (Row.card_type row); [contradiction | discriminate]. }
  split; [exact Hne|]. split; [exact Hlow|]. split.
  { unfold Row.row_type_line. destruct (Row.subtypes row).
    - rewrite <- (append_nil_r (Row.card_type row)) at 2. apply startswith_app.
    - apply startswith_app. }
  split.
  { intros H. unfold Row.card_type. now rewrite H. }
  split.
  { intros H. unfold Row.card_type. unfold lower. rewrite truthy_map_chars.
    apply truthy_true in H. now rewrite H. }
  split.
  { unfold Row.subtypes.
    change 5 with (1 * length Row.subtype_keys). apply length_flat_map_le.
    intros key. destruct (Row.given _); cbn; lia. }
  split; [apply subtypes_origin|].
  unfold Row.row_type_line. split.
  - intros ->. reflexivity.
  - intros H. destruct (Row.subtypes row); [contradiction | reflexivity].
Qed.

Lemma X12_type_line_witness :
  exists c, Row.parse_csv_row
              (<["types" := " Spell "]> (<["Subtype 2" := "NaN"]>
                 (<["Subtype 4" := " Fire "]> row_test_unit))) = Ok (Some c) /\
            type_line c = "spell - fire".
Proof.
  ascii_record_of (<["types" := " Spell "]> (<["Subtype 2" := "NaN"]>
               (<["Subtype 4" := " Fire "]> row_test_unit))) c E A.
  exists c. split; [exact E|].
  destruct (X12_type_line _ c A E) as (_ & _ & _ & _ & _ & _ & _ & _ & H).
  rewrite H; vm_compute; congruence.
Defined.

Section Tags.
Import Row.

Lemma split_no_sep sep s :
  Forall (fun x => Props.has_char sep x = false) (split sep s).
Proof.
  induction s as [|c s IH]; cbn [split]; [repeat constructor|].
  destruct (Ascii.eqb c sep) eqn:E.
  - constructor; [reflexivity | exact IH].
  - destruct (split sep s) as [|x l]; [repeat constructor; cbn; now rewrite E|].
    inversion IH as [|? ? Hx Hl]; subst. constructor; [|exact Hl].
    cbn. now rewrite E, Hx.
Qed.

Lemma has_char_strip c s :
  Props.has_char c s = false -> Props.has_char c (strip s) = false.
Proof. rewrite !has_char_false_all. apply all_chars_strip. Qed.

End Tags.

(** X13: for a row of ASCII cells, its record has [tags] exactly when
    the [Tags] column is
    neither empty nor [nan] once trimmed; every tag is then a non-empty
    piece of the column between commas, without white space at its ends
    and without comma. *)
Theorem X13_tags (row : gmap string string) (c : card) :
  Props.ascii_row row = true ->
  Row.parse_csv_row row = Ok (Some c) ->
  (tags c = None <-> Props.blank (Row.get row "Tags") = true) /\
  (forall ts, tags c = Some ts ->
     Forall (fun t => t <> EmptyString /\ strip t = t /\
                      Props.has_char "," t = false /\
                      exists piece, In piece (split "," (strip (Row.get row "Tags"))) /\
                                    t = strip piece) ts).
Proof.
  intros _ Hp. apply parse_csv_row_Some in Hp.
  destruct Hp as (_ & _ & e & m & p & _ & _ & _ & ->). cbn [tags].
  unfold Row.row_tags. rewrite given_blank.
  destruct (Props.blank (Row.get row "Tags")); cbn [negb].
  - split; [tauto|]. discriminate.
  - split; [split; discriminate|].
    intros ts H. injection H as <-.
    apply List.Forall_forall. intros t Ht.
    apply list_elem_of_In, list_elem_of_filter in Ht. destruct Ht as [Hne Ht].
    apply list_elem_of_fmap in Ht. destruct Ht as (piece & -> & Hpiece).
    split; [now apply truthy_true|]. split; [apply strip_idem|]. split.
    + apply has_char_strip.
      pose proof (split_no_sep "," (strip (Row.get row "Tags"))) as F.
      rewrite List.Forall_forall in F. apply F. now apply list_elem_of_In.
    + exists piece. split; [now apply list_elem_of_In | reflexivity].
Qed.

Lemma X13_tags_witness :
  exists c, Row.parse_csv_row (<["Tags" := " fast , , Ionia,"]> row_test_unit)
            = Ok (Some c) /\
            tags c = Some ["fast"; "Ionia"] /\
            Forall (fun t => strip t = t) ["fast"; "Ionia"].
Proof.
  ascii_record_of (<["Tags" := " fast , , Ionia,"]> row_test_unit) c E A.
  exists c. split; [exact E|].
  assert (T : tags c = Some ["fast"; "Ionia"]).
  { revert E. vm_compute. intros E. injection E as <-. reflexivity. }
  split; [exact T|].
  destruct (X13_tags _ c A E) as (_ & H).
  eapply List.Forall_impl; [|apply (H _ T)]. cbn. tauto.
Defined.

(** X14: for a row of ASCII cells, its record has [supertypes] exactly
    when the
    [supertypes] column is neither empty nor [nan] once trimmed; the
    value is then the trimmed column in lower case. *)
Theorem X14_supertypes (row : gmap string string) (c : card) :
  Props.ascii_row row = true ->
  Row.parse_csv_row row = Ok (Some c) ->
  (supertypes c = None <-> Props.blank (Row.get row "supertypes") = true) /\
  (forall s, supertypes c = Some s ->
     s = lower (strip (Row.get row "supertypes")) /\
     s <> EmptyString /\ s <> "nan" /\ lower s = s /\ strip s = s).
Proof.
  intros _ Hp. apply parse_csv_row_Some in Hp.
  destruct Hp as (_ & _ & e & m & p & _ & _ & _ & ->). cbn [supertypes].
  unfold Row.row_supertypes. rewrite given_blank.
  destruct (Props.blank (Row.get row "supertypes")) eqn:B; cbn [negb].
  - split; [tauto|]. discriminate.
  - split; [split; discriminate|].
    intros s H. injection H as <-. split; [reflexivity|].
    unfold Props.blank in B. apply orb_false_iff in B. destruct B as [B1 B2].
    apply negb_false_iff in B1. apply String.eqb_neq in B2.
    split.
    { unfold lower. apply truthy_true. now rewrite truthy_map_chars. }
    split; [exact B2|]. split; [apply lower_idem|].
    now rewrite strip_lower, strip_idem.
Qed.

Lemma X14_supertypes_witness :
  exists c, Row.parse_csv_row (<["supertypes" := " Basic "]> row_test_unit)
            = Ok (Some c) /\ supertypes c = Some "basic".
Proof.
  ascii_record_of (<["supertypes" := " Basic "]> row_test_unit) c E A.
  exists c. split; [exact E|].
  assert (T : exists s, supertypes c = Some s).
  { revert E. vm_compute. intros E. injection E as <-. eauto. }
  destruct T as [s T]. rewrite T. f_equal.
  destruct (X14_supertypes _ c A E) as (_ & H).
  destruct (H s T) as (-> & _). vm_compute. reflexivity.
Defined.

(** ** The loops of [main], continued *)

Section Output.
Import Main Props.

Lemma legacy_type_line_lower lc :
  lower (Legacy.legacy_type_line lc) = Legacy.legacy_type_line lc.
Proof.
  unfold Legacy.legacy_type_line.
  destruct (default [] (l_tags lc)) as [|t ts].
  - apply lower_idem.
  - rewrite !lower_app, lower_join, lower_idem. f_equal. f_equal. f_equal.
    rewrite <- list_fmap_compose. apply list_fmap_ext. intros _ x _. apply lower_idem.
Qed.

Lemma rarity_add_image images c : rarity (add_image images c) = rarity c.
Proof. unfold add_image. now destruct (images !! name c). Qed.

Lemma type_line_add_image images c : type_line (add_image images c) = type_line c.
Proof. unfold add_image. now destruct (images !! name c). Qed.

Lemma csv_names_spec images rows n :
  n ∈ csv_names images rows <->
  exists c, In c (csv_records images rows) /\ n = lower (name c).
Proof.
  unfold csv_names. rewrite elem_of_list_to_set, list_elem_of_fmap.
  split; intros (c & H1 & H2); exists c;
    [rewrite <- list_elem_of_In | rewrite list_elem_of_In]; auto.
Qed.

End Output.

(** X15: in the list written out, the [rarity] and the [type_line] of
    every record, of a row or of a legacy record, are in lower case. *)
Theorem X15_output_lower_case images legacy rows :
  exists cards,
    Main.build_cards images legacy rows = Ok cards /\
    Forall (fun c => lower (rarity c) = rarity c /\
                     lower (type_line c) = type_line c) cards.
Proof.
  eexists. split; [apply build_cards_spec|].
  apply Forall_app. split; apply List.Forall_forall.
  - intros c Hc. apply csv_records_origin in Hc.
    destruct Hc as (row & c0 & _ & Hp & ->).
    rewrite rarity_add_image, type_line_add_image.
    apply parse_csv_row_Some in Hp.
    destruct Hp as (_ & _ & e & m & p & _ & _ & _ & ->). cbn [rarity type_line].
    split; [apply lower_idem | apply row_type_line_lower].
  - intros c Hc. apply list_elem_of_In, list_elem_of_fmap in Hc.
    destruct Hc as (lc & -> & _). cbn [Legacy.convert_legacy_to_expert rarity type_line].
    split; [apply lower_idem | apply legacy_type_line_lower].
Qed.

(** X16: for ASCII rows and ASCII legacy names, the rows win over the
    legacy records: the list written out is the records of the rows
    followed by the conversions, in the order of the legacy list, of
    exactly the legacy records that have a non-empty name which, letter
    case apart, no record of a row has; so no converted legacy record
    has, letter case apart, the name of a record of a row. *)
Theorem X16_rows_win images legacy rows :
  Forall (fun row => Props.ascii_row row = true) rows ->
  Forall (fun lc => Props.is_ascii (default EmptyString (l_name lc)) = true) legacy ->
  Main.build_cards images legacy rows
  = Ok (Props.csv_records images rows ++
        (Legacy.convert_legacy_to_expert <$>
           filter (fun lc =>
                     default EmptyString (l_name lc) <> EmptyString /\
                     Forall (fun c => lower (name c)
                                      <> lower (default EmptyString (l_name lc)))
                            (Props.csv_records images rows))
                  legacy)) /\
  forall c c',
    In c (Props.csv_records images rows) ->
    In c' (Legacy.convert_legacy_to_expert <$>
             filter (fun lc =>
                       default EmptyString (l_name lc) <> EmptyString /\
                       Forall (fun c => lower (name c)
                                        <> lower (default EmptyString (l_name lc)))
                              (Props.csv_records images rows))
                    legacy) ->
    lower (name c) <> lower (name c').
Proof.
  intros _ _. split.
  - rewrite build_cards_spec. f_equal. f_equal. f_equal.
    apply list_filter_iff. intros lc. unfold Props.missing_from_csv.
    rewrite List.Forall_forall. split; intros [Hn Hc]; (split; [exact Hn|]).
    + intros c Hin E. apply Hc. apply csv_names_spec. exists c. auto.
    + intros Hin. apply csv_names_spec in Hin. destruct Hin as (c & Hin & E).
      apply (Hc c Hin). now rewrite E.
  - intros c c' Hc Hc'.
    apply list_elem_of_In, list_elem_of_fmap in Hc'. destruct Hc' as (lc & -> & Hlc).
    apply list_elem_of_filter in Hlc. destruct Hlc as [[_ Hn] _].
    rewrite List.Forall_forall in Hn. cbn [Legacy.convert_legacy_to_expert name].
    now apply Hn.
Qed.

Lemma X16_rows_win_witness :
  Main.build_cards ∅
    [legacy_name_only;
     {| l_id := Some "L1"; l_name := Some "TEST unit"; l_rarity := None;
        l_domain := None; l_type := None; l_tags := None; l_cost := None;
        l_stats := None; l_ability := None; l_image_url := None |}]
    [row_test_unit]
  = Ok (Props.csv_records ∅ [row_test_unit]
        ++ [Legacy.convert_legacy_to_expert legacy_name_only]).
Proof.
  destruct (X16_rows_win ∅
    [legacy_name_only;
     {| l_id := Some "L1"; l_name := Some "TEST unit"; l_rarity := None;
        l_domain := None; l_type := None; l_tags := None; l_cost := None;
        l_stats := None; l_ability := None; l_image_url := None |}]
    [row_test_unit]) as (E & _).
  - repeat constructor.
  - repeat constructor.
  - rewrite E. vm_compute. reflexivity.
Defined.

(** X17: without legacy records the list written out is the records of
    the rows; without rows it is the conversion of every legacy record
    that has a non-empty name, in the order of the legacy list, two
    legacy records of one name both included. *)
Theorem X17_one_source_only images :
  (forall rows, Main.build_cards images [] rows = Ok (Props.csv_records images rows)) /\
  (forall legacy,
     Main.build_cards images legacy []
     = Ok (Legacy.convert_legacy_to_expert <$>
             filter (fun lc => default EmptyString (l_name lc) <> EmptyString) legacy)) /\
  (forall lc, default EmptyString (l_name lc) <> EmptyString ->
     Main.build_cards images [lc; lc] []
     = Ok [Legacy.convert_legacy_to_expert lc; Legacy.convert_legacy_to_expert lc]).
Proof.
  assert (G : forall legacy,
     Main.build_cards images legacy []
     = Ok (Legacy.convert_legacy_to_expert <$>
             filter (fun lc => default EmptyString (l_name lc) <> EmptyString) legacy)).
  { intros legacy. rewrite build_cards_spec. cbn [Props.csv_records flat_map app].
    f_equal. f_equal. apply list_filter_iff. intros lc.
    unfold Props.missing_from_csv, Props.csv_names.
    cbn [Props.csv_records flat_map fmap list_fmap list_to_set foldr].
    split; [tauto|]. intros H. split; [exact H | apply not_elem_of_empty]. }
  split; [|split; [exact G|]].
  - intros rows. rewrite build_cards_spec. cbn. now rewrite app_nil_r.
  - intros lc Hn. rewrite G. now rewrite !filter_cons_True, filter_nil by assumption.
Qed.

Lemma X17_one_source_only_witness :
  Main.build_cards ∅ [legacy_name_only; legacy_name_only] []
  = Ok [Legacy.convert_legacy_to_expert legacy_name_only;
        Legacy.convert_legacy_to_expert legacy_name_only].
Proof.
  destruct (X17_one_source_only ∅) as (_ & _ & H). apply H. discriminate.
Defined.

(** ** Image map *)

Section ImageMap.
Import Images Props.

Lemma absolute_url_spec u :
  u <> EmptyString ->
  absolute_url u <> EmptyString /\ startswith "/" (absolute_url u) = false.
Proof.
  intros Hu. unfold absolute_url.
  destruct (startswith "/" u) eqn:E.
  - split; [discriminate | reflexivity].
  - auto.
Qed.

Lemma image_step_ok images row :
  map_Forall image_entry_ok images -> map_Forall image_entry_ok (image_step images row).
Proof.
  intros H. unfold image_step.
  destruct (truthy (strip (Row.get row "Name"))) eqn:Hn; [|exact H].
  destruct (truthy (strip (Row.get row "Card Image URL"))) eqn:Hu; [|exact H].
  cbn [andb]. apply map_Forall_insert_2; [|exact H].
  apply truthy_true in Hn, Hu.
  destruct (absolute_url_spec _ Hu) as [H1 H2].
  repeat split; auto using strip_idem.
Qed.

Lemma load_images_ok rows images :
  map_Forall image_entry_ok images ->
  map_Forall image_entry_ok (fold_left image_step rows images).
Proof.
  revert images. induction rows as [|row rows IH]; intros images H; [exact H|].
  cbn [fold_left]. apply IH. now apply image_step_ok.
Qed.

End ImageMap.

(** X18: every entry of the map of [load_images] has a name that is
    not empty and has no white space at its ends, and a URL that is not
    empty and does not start with a slash. *)
Theorem X18_load_images_entries (rows : list (gmap string string)) (n u : string) :
  Images.load_images rows !! n = Some u ->
  n <> EmptyString /\ strip n = n /\
  u <> EmptyString /\ startswith "/" u = false.
Proof.
  intros H. apply (load_images_ok rows ∅ (map_Forall_empty _) n u H).
Qed.

Lemma X18_load_images_entries_witness :
  Images.load_images [image_row " Ahri " "/img/ahri.png"] !! "Ahri"
  = Some "https://riftdecks.com/img/ahri.png" /\
  startswith "/" "https://riftdecks.com/img/ahri.png" = false.
Proof.
  assert (E : Images.load_images [image_row " Ahri " "/img/ahri.png"] !! "Ahri"
              = Some "https://riftdecks.com/img/ahri.png") by (vm_compute; reflexivity).
  split; [exact E|].
  now destruct (X18_load_images_entries _ _ _ E) as (_ & _ & _ & H).
Defined.

Section ImageRows.
Import Images.

Lemma load_images_snoc rows row :
  load_images (rows ++ [row]) = image_step (load_images rows) row.
Proof. unfold load_images. now rewrite fold_left_app. Qed.

(** A name is a key of the map exactly when some row has it, with a
    URL. *)
Lemma load_images_keys rows n :
  is_Some (load_images rows !! n) <->
  exists row, In row rows /\ strip (Row.get row "Name") = n /\
              n <> EmptyString /\ strip (Row.get row "Card Image URL") <> EmptyString.
Proof.
  induction rows as [|row rows IH] using rev_ind.
  - cbn. rewrite lookup_empty. split; [intros [? ?]; discriminate | intros (? & [] & _)].
  - rewrite load_images_snoc. unfold image_step.
    destruct (truthy (strip (Row.get row "Name"))) eqn:Hn;
      [destruct (truthy (strip (Row.get row "Card Image URL"))) eqn:Hu|]; cbn [andb].
    + apply truthy_true in Hn, Hu.
      destruct (String.eqb_spec (strip (Row.get row "Name")) n) as [E | E].
      * rewrite E, lookup_insert_eq. split; [|eauto].
        intros _. exists row. rewrite in_app_iff. cbn. subst n. auto.
      * rewrite lookup_insert_ne by exact E. rewrite IH.
        split; intros (r & Hr & H).
        -- exists r. rewrite in_app_iff. auto.
        -- exists r. rewrite in_app_iff in Hr. destruct Hr as [Hr | [<- | []]]; [auto|].
           destruct H as (H & _). contradiction.
    + apply truthy_false in Hu. rewrite IH. split; intros (r & Hr & H).
      * exists r. rewrite in_app_iff. auto.
      * exists r. rewrite in_app_iff in Hr. destruct Hr as [Hr | [<- | []]]; [auto|].
        destruct H as (_ & _ & H). contradiction.
    + apply truthy_false in Hn. rewrite IH. split; intros (r & Hr & H).
      * exists r. rewrite in_app_iff. auto.
      * exists r. rewrite in_app_iff in Hr. destruct Hr as [Hr | [<- | []]]; [auto|].
        destruct H as (H1 & H2 & _). congruence.
Qed.

End ImageRows.

(** X19: for rows of ASCII cells, a later row of the images file
    replaces the URL of an earlier row of the same trimmed name and leaves the other names as they are;
    a row without name or without URL changes nothing; and a name is a
    key of the map exactly when some row has it with a URL. *)
Theorem X19_load_images_rows (rows : list (gmap string string)) :
  Forall (fun row => Props.ascii_row row = true) rows ->
  (forall row,
     Props.ascii_row row = true ->
     let n := strip (Row.get row "Name") in
     let u := strip (Row.get row "Card Image URL") in
     (n <> EmptyString -> u <> EmptyString ->
      Images.load_images (rows ++ [row]) !! n = Some (Images.absolute_url u)) /\
     (forall n', n' <> n ->
        Images.load_images (rows ++ [row]) !! n' = Images.load_images rows !! n') /\
     (n = EmptyString \/ u = EmptyString ->
      Images.load_images (rows ++ [row]) = Images.load_images rows)) /\
  (forall n,
     is_Some (Images.load_images rows !! n) <->
     exists row, In row rows /\ strip (Row.get row "Name") = n /\
                 n <> EmptyString /\
                 strip (Row.get row "Card Image URL") <> EmptyString).
Proof.
  intros _. split; [|apply load_images_keys].
  intros row _ n u. rewrite load_images_snoc. unfold Images.image_step. fold n u.
  split; [|split].
  - intros Hn Hu. apply truthy_true in Hn, Hu. rewrite Hn, Hu. apply lookup_insert_eq.
  - intros n' Hne.
    destruct (truthy n && truthy u); [|reflexivity].
    apply lookup_insert_ne. congruence.
  - intros [-> | ->]; [reflexivity|]. now rewrite andb_false_r.
Qed.

Lemma X19_load_images_rows_witness :
  Images.load_images ([image_row "Ahri" "/a.png"] ++ [image_row " Ahri" "https://x/b.png"])
  !! "Ahri" = Some "https://x/b.png".
Proof.
  destruct (X19_load_images_rows [image_row "Ahri" "/a.png"]) as (H & _).
  - repeat constructor.
  - assert (A : Props.ascii_row (image_row " Ahri" "https://x/b.png") = true)
      by ascii_cells.
    destruct (H (image_row " Ahri" "https://x/b.png") A) as (H1 & _).
    apply H1; vm_compute; congruence.
Defined.

Section ManualImages.
Import Images.

Lemma setdefault_fold l (images : gmap string string) :
  fold_left setdefault l images = images ∪ list_to_map l.
Proof.
  revert images. induction l as [|[k v] l IH]; intros images.
  - cbn. now rewrite (right_id_L ∅ (∪)).
  - cbn [fold_left]. rewrite IH. unfold setdefault. cbn [fst snd list_to_map foldr].
    apply map_eq. intros i.
    destruct (images !! k) as [w|] eqn:E; rewrite !lookup_union.
    + destruct (decide (k = i)) as [<- | Hne].
      * rewrite E. now destruct (list_to_map l !! k), (<[k:=v]> (list_to_map l) !! k).
      * now rewrite lookup_insert_ne.
    + destruct (decide (k = i)) as [<- | Hne].
      * rewrite !lookup_insert_eq, E. now destruct (list_to_map l !! k).
      * now rewrite !lookup_insert_ne.
Qed.

Lemma manual_images_ok :
  Forall (fun e => e.2 <> EmptyString /\ startswith "/" e.2 = false) manual_images.
Proof. repeat constructor; discriminate. Qed.

End ManualImages.

(** X20: the manual images never replace an entry of the map: a name
    that the map has keeps its URL, a name that it does not have gets
    the URL of the manual table, if it is there; so each of the twelve
    names of the manual table is a key afterwards. *)
Theorem X20_manual_images_fill_gaps (images : gmap string string) :
  Images.add_manual_images images = images ∪ list_to_map Images.manual_images /\
  (forall n u, images !! n = Some u ->
               Images.add_manual_images images !! n = Some u) /\
  (forall n, images !! n = None ->
             Images.add_manual_images images !! n
             = (list_to_map Images.manual_images : gmap string string) !! n) /\
  (forall n, In n (Images.manual_images.*1) ->
             is_Some (Images.add_manual_images images !! n)).
Proof.
  assert (E : Images.add_manual_images images = images ∪ list_to_map Images.manual_images)
    by apply setdefault_fold.
  split; [exact E|]. rewrite E. split; [|split].
  - intros n u H. rewrite lookup_union, H. now destruct (list_to_map _ !! n).
  - intros n H. rewrite lookup_union, H. now destruct (list_to_map _ !! n).
  - intros n Hn. rewrite lookup_union.
    assert (Hm : is_Some ((list_to_map Images.manual_images : gmap string string) !! n)).
    { apply not_eq_None_Some. intros Hnone.
      apply not_elem_of_list_to_map in Hnone. apply Hnone. now apply list_elem_of_In. }
    destruct Hm as [v ->]. destruct (images !! n); cbn; eauto.
Qed.

Lemma X20_manual_images_fill_gaps_witness :
  Images.add_manual_images {["Seal of Rage" := "https://x/rage.png"]} !! "Seal of Rage"
  = Some "https://x/rage.png" /\
  is_Some (Images.add_manual_images {["Seal of Rage" := "https://x/rage.png"]}
           !! "Vayne, Hunter").
Proof.
  destruct (X20_manual_images_fill_gaps {["Seal of Rage" := "https://x/rage.png"]})
    as (_ & H1 & _ & H2).
  split.
  - apply H1. reflexivity.
  - apply H2. vm_compute. tauto.
Defined.

Section ImagesOfRecords.
Import Images Props.

Lemma csv_records_image_url images rows c :
  In c (csv_records images rows) -> image_url c = images !! name c.
Proof.
  intros Hc. apply csv_records_origin in Hc.
  destruct Hc as (row & c0 & _ & Hp & ->).
  rewrite name_add_image. apply parse_csv_row_Some in Hp.
  destruct Hp as (_ & _ & e & m & p & _ & _ & _ & ->).
  unfold Main.add_image. cbn [name]. now destruct (images !! _).
Qed.

Lemma all_images_ok image_rows n u :
  add_manual_images (load_images image_rows) !! n = Some u ->
  u <> EmptyString /\ startswith "/" u = false.
Proof.
  unfold add_manual_images. rewrite setdefault_fold, lookup_union_Some_raw.
  intros [H | [_ H]].
  - apply (load_images_ok image_rows ∅ (map_Forall_empty _)) in H.
    destruct H as (_ & _ & H1 & H2). auto.
  - apply elem_of_list_to_map_2, list_elem_of_In in H.
    pose proof manual_images_ok as F. rewrite List.Forall_forall in F.
    apply (F (n, u) H).
Qed.

End ImagesOfRecords.

(** X21: in the list that [main] builds, the [image_url] of a record of
    a row, when there is one, is not empty and does not start with a
    slash; a record whose name is in the manual table, or is the trimmed
    name of a row of the images file that has a URL, has an
    [image_url]. *)
Theorem X21_main_image_urls image_rows legacy rows :
  let images := Images.add_manual_images (Images.load_images image_rows) in
  (exists legacy_part,
     Images.main_cards image_rows legacy rows
     = Ok (Props.csv_records images rows ++ legacy_part)) /\
  forall c, In c (Props.csv_records images rows) ->
    (forall u, image_url c = Some u ->
               u <> EmptyString /\ startswith "/" u = false) /\
    (In (name c) (Images.manual_images.*1) -> image_url c <> None) /\
    ((exists row, In row image_rows /\ strip (Row.get row "Name") = name c /\
                  strip (Row.get row "Card Image URL") <> EmptyString) ->
     image_url c <> None).
Proof.
  intros images. split.
  { eexists. unfold Images.main_cards. apply build_cards_spec. }
  intros c Hc. rewrite (csv_records_image_url images rows c Hc).
  assert (Hname : name c <> EmptyString).
  { apply csv_records_origin in Hc. destruct Hc as (row & c0 & _ & Hp & ->).
    rewrite name_add_image. apply parse_csv_row_Some in Hp.
    destruct Hp as (Hn & _ & e & m & p & _ & _ & _ & ->). exact Hn. }
  split; [|split].
  - intros u Hu. now apply (all_images_ok image_rows (name c)).
  - intros Hin. subst images. unfold Images.add_manual_images.
    rewrite setdefault_fold, lookup_union.
    assert (Hm : is_Some ((list_to_map Images.manual_images : gmap string string)
                          !! name c)).
    { apply not_eq_None_Some. intros Hnone.
      apply not_elem_of_list_to_map in Hnone. apply Hnone. now apply list_elem_of_In. }
    destruct Hm as [v ->]. now destruct (Images.load_images image_rows !! name c).
  - intros (row & Hrow & Hn & Hu).
    assert (Hk : is_Some (Images.load_images image_rows !! name c)).
    { apply load_images_keys. exists row. auto. }
    destruct Hk as [v Hv]. subst images. unfold Images.add_manual_images.
    rewrite setdefault_fold, lookup_union, Hv.
    now destruct (list_to_map Images.manual_images !! name c).
Qed.

Lemma X21_main_image_urls_witness :
  exists c, In c (Props.csv_records
                    (Images.add_manual_images
                       (Images.load_images [image_row " Test Unit " "/img/t.png"]))
                    [row_test_unit]) /\
            image_url c <> None.
Proof.
  assert (Hc : exists c, Props.csv_records
                    (Images.add_manual_images
                       (Images.load_images [image_row " Test Unit " "/img/t.png"]))
                    [row_test_unit] = [c] /\ name c = "Test Unit")
    by (eexists; split; vm_compute; reflexivity).
  destruct Hc as (c & Hc & Hn). exists c.
  assert (Hin : In c (Props.csv_records
                    (Images.add_manual_images
                       (Images.load_images [image_row " Test Unit " "/img/t.png"]))
                    [row_test_unit])) by (rewrite Hc; now left).
  split; [exact Hin|].
  destruct (X21_main_image_urls [image_row " Test Unit " "/img/t.png"] [] [row_test_unit])
    as (_ & H).
  destruct (H c Hin) as (_ & _ & H3). apply H3.
  exists (image_row " Test Unit " "/img/t.png"). rewrite Hn.
  split; [now left|]. split; vm_compute; congruence.
Defined.

(** ** The distributions *)

Section Counting.
Import Report Props.

Lemma distributions_fold cards st :
  fold_left report_step cards st
  = (count_keys domain cards st.1, count_keys primary_type cards st.2).
Proof.
  revert st. induction cards as [|c cards IH]; intros [d t]; [reflexivity|].
  cbn [fold_left]. rewrite IH. reflexivity.
Qed.

Lemma count_keys_lookup f cards counts k :
  default 0 (count_keys f cards counts !! k)
  = default 0 (counts !! k) + length (filter (fun c => f c = k) cards).
Proof.
  revert counts. induction cards as [|c cards IH]; intros counts.
  - cbn. lia.
  - unfold count_keys in *. cbn [fold_left]. rewrite IH. unfold bump.
    destruct (decide (f c = k)) as [E | E].
    + rewrite filter_cons_True by exact E. rewrite E, lookup_insert_eq. cbn. lia.
    + rewrite filter_cons_False by exact E. now rewrite lookup_insert_ne.
Qed.

Lemma count_keys_positive f cards counts k n :
  map_Forall (fun _ v => 0 < v) counts ->
  count_keys f cards counts !! k = Some n -> 0 < n.
Proof.
  revert counts. induction cards as [|c cards IH]; intros counts Hpos H.
  - now apply (Hpos k n).
  - unfold count_keys in *. cbn [fold_left] in H. apply IH in H; [exact H|].
    unfold bump. apply map_Forall_insert_2; [lia | exact Hpos].
Qed.

Lemma total_bump counts k : total (bump counts k) = S (total counts).
Proof.
  assert (Hins : forall (m : gmap string nat) v,
    m !! k = None ->
    map_fold (fun _ v acc => v + acc) 0 (<[k:=v]> m)
    = v + map_fold (fun _ v acc => v + acc) 0 m).
  { intros m v Hm. apply map_fold_insert_L; [intros; lia | exact Hm]. }
  unfold total, bump. destruct (counts !! k) as [v|] eqn:E; cbn [default].
  - rewrite <- (insert_delete_eq counts k (v + 1)).
    rewrite <- (insert_delete_id counts k v E) at 2.
    rewrite !Hins by apply lookup_delete_eq. lia.
  - rewrite Hins by exact E. lia.
Qed.

Lemma count_keys_total f cards counts :
  total (count_keys f cards counts) = total counts + length cards.
Proof.
  revert counts. induction cards as [|c cards IH]; intros counts.
  - cbn. lia.
  - unfold count_keys in *. cbn [fold_left length]. rewrite IH, total_bump. lia.
Qed.

End Counting.

(** X22: the domain distribution counts, for every domain, the cards of
    the list with that domain, and the type distribution, for every
    type, the cards whose [type_line] starts with that type before the
    first " - "; a key of a distribution has a count of at least one. *)
Theorem X22_distribution_counts (cards : list card) (k : string) :
  default 0 ((Report.distributions cards).1 !! k)
  = length (filter (fun c => domain c = k) cards) /\
  default 0 ((Report.distributions cards).2 !! k)
  = length (filter (fun c => Report.primary_type c = k) cards) /\
  (forall n, (Report.distributions cards).1 !! k = Some n -> 0 < n) /\
  (forall n, (Report.distributions cards).2 !! k = Some n -> 0 < n).
Proof.
  unfold Report.distributions. rewrite distributions_fold. cbn [fst snd].
  rewrite !count_keys_lookup, lookup_empty. cbn [default].
  repeat split; try reflexivity.
  - intros n. apply count_keys_positive, map_Forall_empty.
  - intros n. apply count_keys_positive, map_Forall_empty.
Qed.

Lemma X22_distribution_counts_witness :
  (Report.distributions
     [Legacy.convert_legacy_to_expert legacy_name_only;
      Legacy.convert_legacy_to_expert legacy_empty]).1 !! "Colorless" = Some 2.
Proof.
  assert (E : exists n, (Report.distributions
     [Legacy.convert_legacy_to_expert legacy_name_only;
      Legacy.convert_legacy_to_expert legacy_empty]).1 !! "Colorless" = Some n)
    by (eexists; vm_compute; reflexivity).
  destruct E as [n E]. rewrite E. f_equal.
  destruct (X22_distribution_counts
     [Legacy.convert_legacy_to_expert legacy_name_only;
      Legacy.convert_legacy_to_expert legacy_empty] "Colorless") as (H & _ & Hpos & _).
  pose proof (Hpos n E) as Hn. rewrite E in H.
  cbn [default from_option Datatypes.id] in H. rewrite H.
  vm_compute. reflexivity.
Defined.

(** X23: every card is counted once in each distribution: the counts
    of the domain distribution add up to the number of cards, and so do
    the counts of the type distribution. *)
Theorem X23_distribution_totals (cards : list card) :
  Props.total (Report.distributions cards).1 = length cards /\
  Props.total (Report.distributions cards).2 = length cards.
Proof.
  unfold Report.distributions. rewrite distributions_fold. cbn [fst snd].
  rewrite !count_keys_total. split; reflexivity.
Qed.

Section PrimaryType.
Import Report.

Lemma startswith_sep_has_hyphen s :
  startswith " - " s = true -> Props.has_char "-" s = true.
Proof.
  destruct s as [|a [|b s]]; try discriminate.
  - cbn. rewrite andb_false_r. discriminate.
  - cbn [startswith Props.has_char]. intros H.
    apply andb_true_iff in H. destruct H as [_ H].
    apply andb_true_iff in H. destruct H as [H _].
    apply Ascii.eqb_eq in H. subst b. rewrite Ascii.eqb_refl. apply orb_true_r.
Qed.

(** Without hyphen there is nothing to split. *)
Lemma split_no_hyphen s :
  Props.has_char "-" s = false -> split_from 0 " - " s = [s].
Proof.
  induction s as [|c s IH]; intros H; [reflexivity|].
  cbn [split_from].
  destruct (startswith " - " (String c s)) eqn:E.
  - apply startswith_sep_has_hyphen in E. congruence.
  - cbn [Props.has_char] in H. apply orb_false_iff in H. destruct H as [_ H].
    now rewrite (IH H).
Qed.

Lemma split_head_app t rest :
  Props.has_char "-" t = false ->
  head (split_from 0 " - " (t +:+ " - " +:+ rest)) = Some t.
Proof.
  induction t as [|c t IH]; intros H.
  - rewrite append_nil_l. generalize (startswith_app " - " rest).
    destruct (" - " +:+ rest) as [|a s]; [discriminate|].
    intros E. cbn [split_from]. now rewrite E.
  - cbn [Props.has_char] in H. apply orb_false_iff in H. destruct H as [Hc H].
    rewrite append_cons. cbn [split_from].
    assert (E : startswith " - " (String c (t +:+ " - " +:+ rest)) = false).
    { cbn [startswith]. destruct (Ascii.eqb " " c); [|reflexivity]. cbn [andb].
      destruct t as [|d t].
      - reflexivity.
      - rewrite append_cons. cbn [Props.has_char] in H.
        apply orb_false_iff in H. destruct H as [Hd _].
        rewrite Ascii.eqb_sym, Hd. reflexivity. }
    rewrite E. specialize (IH H).
    destruct (split_from 0 " - " (t +:+ " - " +:+ rest)) as [|x l]; [discriminate|].
    cbn in IH. injection IH as ->. reflexivity.
Qed.

End PrimaryType.

(** X24: the key of a card in the type distribution is its whole
    [type_line] when that has no hyphen, and the part before " - " when
    that part has no hyphen; so for a record of a row whose type has no
    hyphen the key is the type, whatever the subtypes are, and so it
    is for a converted legacy record and its tags. *)
Theorem X24_primary_type :
  (forall c, Props.has_char "-" (type_line c) = false ->
             Report.primary_type c = type_line c) /\
  (forall c t rest, type_line c = t +:+ " - " +:+ rest ->
                    Props.has_char "-" t = false ->
                    Report.primary_type c = t) /\
  (forall row c, Row.parse_csv_row row = Ok (Some c) ->
                 Props.has_char "-" (Row.card_type row) = false ->
                 Report.primary_type c = Row.card_type row) /\
  (forall lc, Props.has_char "-" (lower (default "unit" (l_type lc))) = false ->
              Report.primary_type (Legacy.convert_legacy_to_expert lc)
              = lower (default "unit" (l_type lc))).
Proof.
  assert (G1 : forall c, Props.has_char "-" (type_line c) = false ->
                         Report.primary_type c = type_line c).
  { intros c H. unfold Report.primary_type. now rewrite (split_no_hyphen _ H). }
  assert (G2 : forall c t rest, type_line c = t +:+ " - " +:+ rest ->
                    Props.has_char "-" t = false -> Report.primary_type c = t).
  { intros c t rest E H. unfold Report.primary_type.
    now rewrite E, (split_head_app t rest H). }
  split; [exact G1|]. split; [exact G2|]. split.
  - intros row c Hp H.
    assert (E : type_line c = Row.row_type_line row).
    { apply parse_csv_row_Some in Hp.
      now destruct Hp as (_ & _ & e & m & p & _ & _ & _ & ->). }
    unfold Row.row_type_line in E. destruct (Row.subtypes row) as [|st sts].
    + rewrite <- E. apply G1. now rewrite E.
    + now apply (G2 c _ _ E).
  - intros lc H.
    assert (E : type_line (Legacy.convert_legacy_to_expert lc)
                = Legacy.legacy_type_line lc) by reflexivity.
    unfold Legacy.legacy_type_line in E. destruct (default [] (l_tags lc)) as [|t ts].
    + rewrite <- E. apply G1. now rewrite E.
    + now apply (G2 _ _ _ E).
Qed.

Lemma X24_primary_type_witness :
  exists c, Row.parse_csv_row
              (<["types" := "Spell"]> (<["Subtype 1" := "Half-Elf"]> row_test_unit))
            = Ok (Some c) /\
            Report.primary_type c = "spell".
Proof.
  record_of (<["types" := "Spell"]> (<["Subtype 1" := "Half-Elf"]> row_test_unit)) c E.
  exists c. split; [exact E|].
  destruct X24_primary_type as (_ & _ & H & _).
  rewrite (H _ c E); vm_compute; reflexivity.
Defined.

(** ** Base names *)

Section BaseName.
Import Keywords.

Lemma rev_onto_app acc s : rev_onto acc s = rev s +:+ acc.
Proof.
  revert acc. induction s as [|c s IH]; intros acc; [reflexivity|].
  unfold rev. cbn [rev_onto]. rewrite (IH (String c acc)), (IH (String c EmptyString)).
  now rewrite append_assoc.
Qed.

Lemma rev_app a b : rev (a +:+ b) = rev b +:+ rev a.
Proof.
  induction a as [|c a IH].
  - rewrite append_nil_l. now rewrite append_nil_r.
  - rewrite append_cons. unfold rev at 1 3. cbn [rev_onto].
    rewrite !rev_onto_app, IH. now rewrite append_assoc.
Qed.

Lemma rev_not_empty s : s <> EmptyString -> rev s <> EmptyString.
Proof.
  intros H E. apply (f_equal rev) in E. rewrite rev_involutive in E. now apply H.
Qed.

(** A string that [rstrip] leaves as it is does not end with white
    space. *)
Lemma rstrip_fixed_last s :
  rstrip s = s ->
  match rev s with EmptyString => True | String c _ => is_space c = false end.
Proof.
  induction s as [|c s IH]; [easy|]. cbn [rstrip].
  destruct (is_space c && negb (truthy (rstrip s))) eqn:E; [discriminate|].
  intros H. injection H as H. specialize (IH H). rewrite H in E.
  unfold rev. cbn [rev_onto]. rewrite rev_onto_app. fold (rev s).
  destruct (rev s) as [|d r] eqn:Er.
  - rewrite append_nil_l.
    assert (s = EmptyString) as ->.
    { apply (f_equal rev) in Er. now rewrite rev_involutive in Er. }
    cbn in E. now rewrite andb_true_r in E.
  - rewrite append_cons. exact IH.
Qed.

Lemma strip_fixed_rstrip s : strip s = s -> rstrip s = s.
Proof.
  intros H. rewrite <- H at 1. unfold strip. rewrite rstrip_idem. exact H.
Qed.

Lemma cut_number_base base spaces digits :
  strip base = base ->
  spaces <> EmptyString -> Props.all_chars is_space spaces = true ->
  digits <> EmptyString -> Props.all_chars is_digit digits = true ->
  cut_number (base +:+ spaces +:+ digits) = Some base.
Proof.
  intros Hb Hs As Hd Ad. unfold cut_number.
  rewrite !rev_app, append_assoc.
  assert (Ad' : Props.all_chars is_digit (rev digits) = true) by now rewrite all_chars_rev.
  assert (As' : Props.all_chars is_space (rev spaces) = true) by now rewrite all_chars_rev.
  pose proof (rev_not_empty _ Hs) as Hs'. pose proof (rev_not_empty _ Hd) as Hd'.
  rewrite (span_app is_digit (rev digits) (rev spaces +:+ rev base) Ad').
  - rewrite (span_app is_space (rev spaces) (rev base) As').
    + apply truthy_true in Hs', Hd'. rewrite Hs', Hd'. cbn [andb].
      now rewrite rev_involutive.
    + pose proof (rstrip_fixed_last base (strip_fixed_rstrip base Hb)) as L.
      destruct (rev base) as [|c r]; [reflexivity|]. now rewrite L.
  - destruct (rev spaces) as [|c r]; [contradiction|].
    rewrite append_cons. cbn [Props.all_chars] in As'.
    apply andb_true_iff in As'. destruct As' as [Hc _].
    now rewrite (space_not_digit c Hc).
Qed.

End BaseName.

(** X25: the base name of a keyword: when a trimmed name is followed
    by white space and decimal digits, removing the number gives the
    name back, and a text without any digit is its own base name; so in
    the bracket pass a bracketed "name number" adds nothing once the
    name is an entry. *)
Theorem X25_base_name (base spaces digits : string) :
  strip base = base ->
  spaces <> EmptyString -> Props.all_chars is_space spaces = true ->
  digits <> EmptyString -> Props.all_chars is_digit digits = true ->
  Keywords.sub_trailing_number (base +:+ spaces +:+ digits) = base /\
  (Props.all_chars (fun c => negb (is_digit c)) base = true ->
   Keywords.sub_trailing_number base = base) /\
  (forall acc, In base acc ->
     strip (base +:+ spaces +:+ digits) = base +:+ spaces +:+ digits ->
     Keywords.bracket_step acc (base +:+ spaces +:+ digits) = acc).
Proof.
  intros Hb Hs As Hd Ad.
  assert (E : Keywords.sub_trailing_number (base +:+ spaces +:+ digits) = base).
  { unfold Keywords.sub_trailing_number.
    now rewrite (cut_number_base base spaces digits Hb Hs As Hd Ad). }
  split; [exact E|]. split; [apply sub_trailing_number_no_digit|].
  intros acc Hin Hst.
  destruct (bracket_step_cases acc (base +:+ spaces +:+ digits))
    as [(_ & _ & Hn) | (H & _)]; [|exact H].
  rewrite Hst, E in Hn. contradiction.
Qed.

Lemma X25_base_name_witness :
  Keywords.sub_trailing_number "Quick Attack  12" = "Quick Attack" /\
  Keywords.bracket_step ["Quick Attack"] "Quick Attack  12" = ["Quick Attack"].
Proof.
  assert (Hs : "  " <> EmptyString) by discriminate.
  assert (Hd : "12" <> EmptyString) by discriminate.
  destruct (X25_base_name "Quick Attack" "  " "12" eq_refl Hs eq_refl Hd eq_refl)
    as (H1 & _ & H3).
  split; [exact H1|]. apply (H3 ["Quick Attack"]); [now left | reflexivity].
Defined.
